(** * Arduino DHT11 weather station (src/src/main2.cpp)

    A shallow embedding of the sketch: the rolling log (a fixed array of
    six messages and six timestamps plus a fill count), the serial
    renderer, the LED blink routine, the metric formulas and the body of
    [loop].

    Conventions of the embedding.
    - [int] and [unsigned long] values are integers in [Z]; the only
      arithmetic that can wrap is the millisecond clock, which is kept
      modulo 2^32.
    - A C array is a [list] together with the length recorded in
      [wf_state]; an access outside the list is undefined behaviour in
      C++ and is the error ([None]) of the monad [M].
    - Arduino [String] values are Rocq strings.
    - [float] is idealised: a value is either NaN or an exact real number,
      so rounding and infinities are outside the model.
    - The sensor driver is an oracle: the list of values its read calls
      will return.
    - The clock read by [millis()] is moved by [delay] only. On the
      device the serial output and the sensor reads take time as well;
      that time is not modelled: a statement about the trace of a
      program says which delays it requests, not how long it runs on
      the device.
    - [blinkLed] is used with a non-negative [delayMs]; the conversion
      of a negative [int] to the [unsigned long] of [delay] is not
      modelled, and a theorem about [blinkLed] for arbitrary arguments
      keeps them in the range of [int] with [delayMs] non-negative.
    - Execution appends to a ghost [trace] every action on a device
      (sensor, serial port, LED, delay) and every log operation, in
      program order. *)

From Stdlib Require Import Reals Lra ZArith String Ascii List Lia DecimalString.
From Stdlib Require Import DecimalPos DecimalN.
From stdpp Require Import base list strings.
Import ListNotations.

#[local] Open Scope string_scope.
#[local] Open Scope list_scope.
#[local] Open Scope Z_scope.

(** ** Idealised floats *)

Inductive cfloat : Type :=
| FNaN
| FNum (r : R).

Coercion FNum : R >-> cfloat.

Definition isnan (x : cfloat) : bool :=
  match x with FNaN => true | FNum _ => false end.

Module Float.

Definition lift1 (f : R -> R) (a : cfloat) : cfloat :=
  match a with FNum x => FNum (f x) | FNaN => FNaN end.

Definition lift2 (f : R -> R -> R) (a b : cfloat) : cfloat :=
  match a, b with
  | FNum x, FNum y => FNum (f x y)
  | _, _ => FNaN
  end.

Definition add := lift2 Rplus.
Definition sub := lift2 Rminus.
Definition mul := lift2 Rmult.

(** A division by zero has no finite result; it is collapsed to NaN. *)
Definition div (a b : cfloat) : cfloat :=
  match a, b with
  | FNum x, FNum y => if Req_dec_T y 0 then FNaN else FNum (x / y)
  | _, _ => FNaN
  end.

Definition exp := lift1 Rtrigo_def.exp.
Definition atan := lift1 Ratan.atan.

(** [sqrt] of a negative number is NaN. *)
Definition sqrt (a : cfloat) : cfloat :=
  match a with
  | FNum x => if Rlt_dec x 0 then FNaN else FNum (R_sqrt.sqrt x)
  | FNaN => FNaN
  end.

(** [pow] on a positive base; on a zero base with a positive exponent
    it is zero; the remaining cases (negative base, non-positive
    exponent of zero) are collapsed to NaN. *)
Definition pow (a b : cfloat) : cfloat :=
  match a, b with
  | FNum x, FNum y =>
      if Rlt_dec 0 x then FNum (Rpower x y)
      else if Req_dec_T x 0 then (if Rlt_dec 0 y then FNum 0 else FNaN)
      else FNaN
  | _, _ => FNaN
  end.

End Float.

Declare Scope F_scope.
Delimit Scope F_scope with fl.
Bind Scope F_scope with cfloat.
Infix "+" := Float.add : F_scope.
Infix "-" := Float.sub : F_scope.
Infix "*" := Float.mul : F_scope.
Infix "/" := Float.div : F_scope.

(** ** Program state *)

Definition LOG_SIZE : Z := 6.

Definition WAIT_MSG : string :=
  "=== WAIT FOR 10 SECONDS FOR SCREEN TO REFRESH ===".

Inductive event : Type :=
| EvReadTemperature (v : cfloat)
| EvReadHumidity (v : cfloat)
| EvLogClear
| EvLogAppend (msg : string)
| EvLogEvict (msg : string)
| EvPrint (s : string)
| EvPrintln (s : string)
| EvPrintFloat (v : cfloat) (digits : Z)
| EvLed (high : bool)
| EvDelay (ms : Z).

Record state : Type := mkState {
  log_history : list string;
  log_times : list Z;
  log_count : Z;
  clock : Z;
  dht : list cfloat;
  trace : list event
}.

(** The two arrays are declared with [LOG_SIZE] cells. *)
Definition wf_state (s : state) : Prop :=
  Z.of_nat (length (log_history s)) = LOG_SIZE /\
  Z.of_nat (length (log_times s)) = LOG_SIZE.

(** The invariant of the fill count. *)
Definition count_ok (s : state) : Prop := 0 <= log_count s <= LOG_SIZE.

(** ** The execution monad: state, with undefined behaviour as failure *)

Definition M (A : Type) : Type := state -> option (A * state).

Definition ret {A} (a : A) : M A := fun s => Some (a, s).

Definition bind {A B} (m : M A) (k : A -> M B) : M B :=
  fun s => match m s with
           | Some (a, s') => k a s'
           | None => None
           end.

Declare Scope M_scope.
Delimit Scope M_scope with M.
Notation "'do' x <- m ; k" := (bind m (fun x => k))
  (at level 10, x name, m at level 100, k at level 200) : M_scope.
Notation "m >> k" := (bind m (fun _ => k))
  (at level 65, right associativity) : M_scope.
#[local] Open Scope M_scope.

Definition emit (e : event) : M unit :=
  fun s => Some (tt, mkState (log_history s) (log_times s) (log_count s)
                             (clock s) (dht s) (trace s ++ [e])).

Definition get_log_count : M Z := fun s => Some (log_count s, s).

Definition set_log_count (n : Z) : M unit :=
  fun s => Some (tt, mkState (log_history s) (log_times s) n
                             (clock s) (dht s) (trace s)).

(** [log_history[i]] as an rvalue. *)
Definition get_log_history (i : Z) : M string :=
  fun s => if i <? 0 then None
           else match log_history s !! Z.to_nat i with
                | Some v => Some (v, s)
                | None => None
                end.

(** [log_history[i] = v]. *)
Definition set_log_history (i : Z) (v : string) : M unit :=
  fun s => if (i <? 0) || (Z.of_nat (length (log_history s)) <=? i) then None
           else Some (tt, mkState (<[Z.to_nat i := v]> (log_history s))
                                  (log_times s) (log_count s)
                                  (clock s) (dht s) (trace s)).

Definition get_log_times (i : Z) : M Z :=
  fun s => if i <? 0 then None
           else match log_times s !! Z.to_nat i with
                | Some v => Some (v, s)
                | None => None
                end.

Definition set_log_times (i : Z) (v : Z) : M unit :=
  fun s => if (i <? 0) || (Z.of_nat (length (log_times s)) <=? i) then None
           else Some (tt, mkState (log_history s)
                                  (<[Z.to_nat i := v]> (log_times s))
                                  (log_count s) (clock s) (dht s) (trace s)).

(** [millis()]: milliseconds since start, a 32-bit counter. *)
Definition millis : M Z := fun s => Some (clock s, s).

(** [delay(ms)] busy-waits; no other statement takes time in the model. *)
Definition delay (ms : Z) : M unit :=
  fun s => Some (tt, mkState (log_history s) (log_times s) (log_count s)
                             ((clock s + ms) mod 2 ^ 32) (dht s)
                             (trace s ++ [EvDelay ms])).

(** [for (int i = lo; i < hi; ++i) body(i)], for a body that assigns
    neither [i] nor the bound. *)
Fixpoint for_loop (n : nat) (i : Z) (body : Z -> M unit) : M unit :=
  match n with
  | O => ret tt
  | S n' => body i >> for_loop n' (i + 1) body
  end.

Definition for_range (lo hi : Z) (body : Z -> M unit) : M unit :=
  for_loop (Z.to_nat (hi - lo)) lo body.

(** ** The rolling log *)

Definition add_log (msg : string) : M unit :=
  do n <- get_log_count;
  if n <? LOG_SIZE then
    emit (EvLogAppend msg) >>
    set_log_history n msg >>
    (do t <- millis; set_log_times n t) >>
    set_log_count (n + 1)
  else
    emit (EvLogEvict msg) >>
    for_range 1 LOG_SIZE (fun i =>
      (do h <- get_log_history i; set_log_history (i - 1) h) >>
      (do t <- get_log_times i; set_log_times (i - 1) t)) >>
    set_log_history (LOG_SIZE - 1) msg >>
    (do t <- millis; set_log_times (LOG_SIZE - 1) t).

(** [log_count = 0;] at the top of [loop]. *)
Definition clear_log : M unit :=
  emit EvLogClear >> set_log_count 0.

Fixpoint add_logs (msgs : list string) : M unit :=
  match msgs with
  | [] => ret tt
  | m :: rest => add_log m >> add_logs rest
  end.


(** The live part of the log: the first [log_count] cells. *)
Definition log_messages (s : state) : list string :=
  take (Z.to_nat (log_count s)) (log_history s).

Definition log_stamps (s : state) : list Z :=
  take (Z.to_nat (log_count s)) (log_times s).

(** ** Serial port, LED and sensor *)

Definition Serial_print (s : string) : M unit := emit (EvPrint s).
Definition Serial_println (s : string) : M unit := emit (EvPrintln s).
Definition Serial_print_float (v : cfloat) (digits : Z) : M unit :=
  emit (EvPrintFloat v digits).

Definition digitalWrite_LED (high : bool) : M unit := emit (EvLed high).

(** One call of the driver: the next value of the oracle, NaN when the
    oracle has nothing left to give. *)
Definition dht_read : M cfloat :=
  fun s => match dht s with
           | [] => Some (FNaN, s)
           | v :: rest =>
               Some (v, mkState (log_history s) (log_times s) (log_count s)
                                (clock s) rest (trace s))
           end.

Definition dht_readTemperature : M cfloat :=
  do v <- dht_read; emit (EvReadTemperature v) >> ret v.

Definition dht_readHumidity : M cfloat :=
  do v <- dht_read; emit (EvReadHumidity v) >> ret v.

(** ** Rendering *)

Definition BORDER : string :=
  "+----------------------------------------------------+".

Definition BLANK : string :=
  "                                                     ".

Definition print_border : M unit := Serial_println BORDER.

Definition print_footer : M unit := Serial_println BORDER.

Definition print_instructions : M unit :=
  Serial_println BORDER >>
  Serial_println "| HexKernel | GitHub Repository                      |" >>
  Serial_println "| github.com/HexKernel/Arduino-DHT11-Weather-Station |" >>
  Serial_println BORDER.

(** [%02lu]: decimal, at least two digits, padded with zeros. *)
Definition fmt_02lu (n : Z) : string :=
  let d := NilZero.string_of_uint (N.to_uint (Z.to_N n)) in
  if (String.length d <? 2)%nat then ("0" ++ d)%string else d.

(** ["%02lu:%02lu:%02lu"] applied to [sec/3600], [(sec/60)%60], [sec%60]. *)
Definition fmt_hms (sec : Z) : string :=
  (fmt_02lu (sec / 3600) ++ ":" ++ fmt_02lu ((sec / 60) mod 60) ++ ":" ++
   fmt_02lu (sec mod 60))%string.

(** [snprintf(buf, size, ...)] keeps at most [size - 1] characters. *)
Definition snprintf (size : nat) (text : string) : string :=
  substring 0 (size - 1) text.

(** ["[%02lu:%02lu:%02lu] %s"] for a log entry stamped [t] milliseconds. *)
Definition fmt_entry (t : Z) (msg : string) : string :=
  ("[" ++ fmt_hms (t / 1000) ++ "] " ++ msg)%string.

(** The body of the first loop of [print_log_section]: the wait marker
    goes out without a timestamp. *)
Definition print_log_entry (i : Z) : M unit :=
  do h <- get_log_history i;
  if String.eqb h WAIT_MSG then
    Serial_print "  " >> Serial_println h
  else
    do t <- get_log_times i;
    let sec := t / 1000 in
    let buf := snprintf 64 ("[" ++ fmt_hms sec ++ "] " ++ h)%string in
    Serial_print "  " >> Serial_println buf.

Definition print_log_section : M unit :=
  Serial_println "Log & Status:                                    " >>
  (do n <- get_log_count; for_range 0 n print_log_entry) >>
  (do n <- get_log_count;
   for_range n LOG_SIZE (fun _ => Serial_println BLANK)) >>
  Serial_println BLANK.

Definition blinkLed (times delayMs : Z) : M unit :=
  for_range 0 times (fun _ =>
    digitalWrite_LED true >> delay delayMs >>
    digitalWrite_LED false >> delay delayMs).

(** What reaches the terminal: a line is the sequence of chunks printed
    up to a [println]; a number is kept with its digit count. *)
Inductive chunk : Type :=
| Text (s : string)
| Number (v : cfloat) (digits : Z).

Fixpoint split_lines (cur : list chunk) (tr : list event) : list (list chunk) :=
  match tr with
  | [] => []
  | EvPrint s :: tr' => split_lines (cur ++ [Text s]) tr'
  | EvPrintFloat v d :: tr' => split_lines (cur ++ [Number v d]) tr'
  | EvPrintln s :: tr' => (cur ++ [Text s]) :: split_lines [] tr'
  | _ :: tr' => split_lines cur tr'
  end.

Definition serial_lines (tr : list event) : list (list chunk) :=
  split_lines [] tr.

(** The characters of a line without numbers. *)
Fixpoint line_text (l : list chunk) : option string :=
  match l with
  | [] => Some EmptyString
  | Text s :: l' =>
      match line_text l' with
      | Some r => Some (s ++ r)%string
      | None => None
      end
  | Number _ _ :: _ => None
  end.

(** ** The metric bank *)

Module Metrics.

#[local] Open Scope R_scope.
#[local] Open Scope F_scope.

Definition dewPoint (temp hum : cfloat) : cfloat :=
  temp - ((100 - hum) / 5.0).

Definition absHumidity (temp hum : cfloat) : cfloat :=
  216.7 * ((hum / 100.0) * 6.112 *
           Float.exp ((17.62 * temp) / (243.12 + temp)) / (273.15 + temp)).

Definition specificHumidity (temp hum : cfloat) : cfloat :=
  (0.622 * (hum / 100.0)) / (1 + (0.622 * (hum / 100.0))).

Definition mixingRatio (temp hum : cfloat) : cfloat :=
  (622 * (hum / 100.0)) / (1000 - (hum / 100.0)).

Definition vaporPressure (temp hum : cfloat) : cfloat :=
  hum / 100.0 * 6.112 * Float.exp ((17.62 * temp) / (243.12 + temp)).

Definition satVaporPressure (temp hum : cfloat) : cfloat :=
  6.112 * Float.exp ((17.62 * temp) / (243.12 + temp)).

Definition wetBulb (temp hum : cfloat) : cfloat :=
  temp * Float.atan (0.151977 * Float.sqrt (hum + 8.313659)) +
  Float.atan (temp + hum) - Float.atan (hum - 1.676331) +
  0.00391838 * Float.pow hum 1.5 * Float.atan (0.023101 * hum) - 4.686035.

Definition humidex (temp hum : cfloat) : cfloat :=
  temp + 0.5555 * (vaporPressure temp hum - 10.0).

Definition enthalpy (temp hum : cfloat) : cfloat :=
  1.006 * temp + (2501 + 1.86 * temp) * hum / 100.0.

End Metrics.

(** ** [setup] and [loop] *)

Definition setup : M unit :=
  delay 2000 >>
  Serial_println
    "Temp,Humidity,HeatIdx,DewPt,AbsHum,SpecHum,MixR,VapPres,SatVapPres,WetBulb,Humidex,Enthalpy".

(** The eight-blink wait that closes both branches of [loop]. *)
Definition blink_wait : M unit :=
  for_range 0 8 (fun _ => blinkLed 1 625 >> delay 625).

Definition invalid_branch : M unit :=
  add_log "Sensor error: nan values." >>
  add_log WAIT_MSG >>
  print_log_section >>
  print_instructions >>
  blink_wait >>
  delay 5000.

(** The report of a valid reading: thirty empty lines as a screen
    clear, the header with the uptime, the metrics. *)
Definition print_report (temp hum heatIndex dewPoint absHumidity
    specificHumidity mixingRatio vaporPressure satVaporPressure wetBulb
    humidex enthalpy : cfloat) : M unit :=
  for_range 0 30 (fun _ => Serial_println EmptyString) >>
  (do now <- millis;
   let uptime := now / 1000 in
   let uptime_str := snprintf 16 (fmt_hms uptime) in
   print_border >>
   Serial_println "|         Arduino Weather Station Live Feed          |" >>
   Serial_print "|         Uptime: " >> Serial_print uptime_str >>
   Serial_println "                           |" >>
   print_border) >>
  Serial_print "  Temp (C):           " >> Serial_print_float temp 2 >>
  Serial_println "  (approx +/-2.00)" >>
  Serial_print "  Humidity (%):       " >> Serial_print_float hum 2 >>
  Serial_println "  (approx +/-5.00)" >>
  Serial_print "  Heat Index (C):     " >> Serial_print_float heatIndex 2 >>
  Serial_println EmptyString >>
  Serial_print "  Humidex:            " >> Serial_print_float humidex 2 >>
  Serial_println EmptyString >>
  Serial_print "  Dew Point (C):      " >> Serial_print_float dewPoint 2 >>
  Serial_println EmptyString >>
  Serial_print "  Wet Bulb Temp (C):  " >> Serial_print_float wetBulb 2 >>
  Serial_println EmptyString >>
  Serial_print "  Enthalpy (kJ/kg):   " >> Serial_print_float enthalpy 2 >>
  Serial_println EmptyString >>
  Serial_println EmptyString >>
  Serial_print "  Abs Humidity (g/m3):" >> Serial_print_float absHumidity 2 >>
  Serial_println EmptyString >>
  Serial_print "  Specific Humidity:  " >>
  Serial_print_float specificHumidity 5 >>
  Serial_println EmptyString >>
  Serial_print "  Mixing Ratio (g/kg):" >> Serial_print_float mixingRatio 2 >>
  Serial_println EmptyString >>
  Serial_println EmptyString >>
  Serial_print "  Vapor Pressure (hPa):" >>
  Serial_print_float vaporPressure 2 >>
  Serial_println EmptyString >>
  Serial_print "  Sat Vapor Press.:   " >>
  Serial_print_float satVaporPressure 2 >>
  Serial_println EmptyString >>
  print_border.

Section HeatIndex.

(** [dht.computeHeatIndex] belongs to the sensor library. *)
Variable computeHeatIndex : cfloat -> cfloat -> bool -> cfloat.

Definition valid_branch (temp hum : cfloat) : M unit :=
  add_log "Calculations for metrics done." >>
  let heatIndex := computeHeatIndex temp hum false in
  let dewPoint := Metrics.dewPoint temp hum in
  let absHumidity := Metrics.absHumidity temp hum in
  let specificHumidity := Metrics.specificHumidity temp hum in
  let mixingRatio := Metrics.mixingRatio temp hum in
  let vaporPressure := Metrics.vaporPressure temp hum in
  let satVaporPressure := Metrics.satVaporPressure temp hum in
  let wetBulb := Metrics.wetBulb temp hum in
  let humidex := Metrics.humidex temp hum in
  let enthalpy := Metrics.enthalpy temp hum in
  add_log "Parsing data to serial output." >>
  blinkLed 3 70 >>
  print_report temp hum heatIndex dewPoint absHumidity specificHumidity
    mixingRatio vaporPressure satVaporPressure wetBulb humidex enthalpy >>
  add_log "Successful display to serial monitor." >>
  add_log WAIT_MSG >>
  print_log_section >>
  print_instructions >>
  blink_wait.

Definition loop : M unit :=
  do temp <- dht_readTemperature;
  do hum <- dht_readHumidity;
  clear_log >>
  add_log "Measurement received from DHT11." >>
  if isnan temp || isnan hum then invalid_branch
  else valid_branch temp hum.

(** [n] successive executions of [loop]. *)
Fixpoint cycles (n : nat) : M unit :=
  match n with
  | O => ret tt
  | S n' => loop >> cycles n'
  end.

End HeatIndex.

(** The state of the sketch before [setup]: zero-initialised globals. *)
Definition boot (inp : list cfloat) : state :=
  mkState (replicate 6 EmptyString) (replicate 6 0) 0 0 inp [].

(** ** Observations on a trace *)

Definition is_evict (e : event) : bool :=
  match e with EvLogEvict _ => true | _ => false end.

Definition is_metric_output (e : event) : bool :=
  match e with EvPrintFloat _ _ => true | _ => false end.

Definition is_serial (e : event) : bool :=
  match e with
  | EvPrint _ | EvPrintln _ | EvPrintFloat _ _ => true
  | _ => false
  end.

Definition delay_of (e : event) : Z :=
  match e with EvDelay ms => ms | _ => 0 end.

(** Milliseconds of [delay] executed in a trace. *)
Definition total_delay (tr : list event) : Z :=
  fold_right (fun e acc => delay_of e + acc) 0 tr.

(** The events after the last serial output. *)
Fixpoint after_rendering (tr : list event) : list event :=
  match tr with
  | [] => []
  | e :: tr' =>
      if existsb is_serial tr' then after_rendering tr'
      else if is_serial e then tr' else e :: tr'
  end.

(** The wait that closes a cycle: the delays executed once rendering is
    over. *)
Definition closing_wait (tr : list event) : Z :=
  total_delay (after_rendering tr).

(** ** Expected output of the renderer *)

(** The live entries: message and timestamp of the first [log_count]
    cells. *)
Definition log_entries (s : state) : list (string * Z) :=
  zip (log_messages s) (log_stamps s).

(** What [print_log_section] sends for one entry. *)
Definition entry_events (e : string * Z) : list event :=
  if String.eqb (fst e) WAIT_MSG
  then [EvPrint "  "; EvPrintln (fst e)]
  else [EvPrint "  "; EvPrintln (snprintf 64 (fmt_entry (snd e) (fst e)))].

Definition log_section_events (es : list (string * Z)) : list event :=
  EvPrintln "Log & Status:                                    " ::
  flat_map entry_events es ++
  replicate (Z.to_nat (LOG_SIZE - Z.of_nat (length es))) (EvPrintln BLANK) ++
  [EvPrintln BLANK].

Definition instructions_events : list event :=
  [EvPrintln BORDER;
   EvPrintln "| HexKernel | GitHub Repository                      |";
   EvPrintln "| github.com/HexKernel/Arduino-DHT11-Weather-Station |";
   EvPrintln BORDER].

(** One turn of the closing wait: [blinkLed(1, 625); delay(625);]. *)
Definition blink_turn : list event :=
  [EvLed true; EvDelay 625; EvLed false; EvDelay 625; EvDelay 625].

Definition blink_wait_events : list event :=
  concat (replicate 8 blink_turn).

(** The clock after the delays of a sequence of events. *)
Definition advance (c : Z) (evs : list event) : Z :=
  fold_left (fun c e => match e with
                        | EvDelay ms => (c + ms) mod 2 ^ 32
                        | _ => c
                        end) evs c.

(** The state [s] once the device events [evs] have happened: the trace
    grows and the clock moves by the delays; the log is untouched. *)
Definition after_events (s : state) (evs : list event) : state :=
  mkState (log_history s) (log_times s) (log_count s)
          (advance (clock s) evs) (dht s) (trace s ++ evs).

(** [m], run from [s], succeeds and does nothing but the events [evs]. *)
Definition plays_at (m : M unit) (s : state) (evs : list event) : Prop :=
  m s = Some (tt, after_events s evs).

Definition plays (m : M unit) (evs : list event) : Prop :=
  forall s, plays_at m s evs.

Definition not_delay (e : event) : bool :=
  match e with EvDelay _ => false | _ => true end.

(** The line of the terminal that shows one entry. *)
Definition entry_line (e : string * Z) : list chunk :=
  [Text "  ";
   Text (if String.eqb (fst e) WAIT_MSG then fst e
         else snprintf 64 (fmt_entry (snd e) (fst e)))].

(** Events of the serial port, the LED and the timer. *)
Definition is_device (e : event) : bool :=
  match e with
  | EvPrint _ | EvPrintln _ | EvPrintFloat _ _ | EvLed _ | EvDelay _ => true
  | _ => false
  end.

Definition device_only (evs : list event) : Prop :=
  forallb is_device evs = true.

(** A program that only drives devices, whatever the state. *)
Definition device_prog (m : M unit) : Prop :=
  forall s, exists evs, plays_at m s evs /\ device_only evs.

(** Calls of [add_log], whichever branch they took. *)
Definition is_add_log (e : event) : bool :=
  match e with EvLogAppend _ | EvLogEvict _ => true | _ => false end.

Definition add_log_calls (tr : list event) : nat :=
  length (filter (fun e => is_add_log e = true) tr).

Definition no_evict (tr : list event) : Prop :=
  forallb (fun e => negb (is_evict e)) tr = true.

(** The readings the next two calls of the driver return, and what is
    left of the oracle. *)
Definition next_temp (s : state) : cfloat := hd FNaN (dht s).
Definition next_hum (s : state) : cfloat := hd FNaN (tl (dht s)).
Definition rest_dht (s : state) : list cfloat := tl (tl (dht s)).

(** The events every cycle starts with, in program order. *)
Definition cycle_start_events (temp hum : cfloat) : list event :=
  [EvReadTemperature temp; EvReadHumidity hum; EvLogClear;
   EvLogAppend "Measurement received from DHT11."].

(** The state of a cycle once the sensor is read, the log cleared and
    the reception logged. *)
Definition started (s : state) : state :=
  mkState (<[0%nat := "Measurement received from DHT11."]> (log_history s))
          (<[0%nat := clock s]> (log_times s))
          1 (clock s) (rest_dht s)
          (trace s ++ cycle_start_events (next_temp s) (next_hum s)).

(** [m] runs from [s] to [s'] without undefined behaviour. *)
Definition runs (m : M unit) (s s' : state) : Prop := m s = Some (tt, s').

(** [s'] is [s] with [msgs] appended to the log, nothing evicted. *)
Definition appended (msgs : list string) (s s' : state) : Prop :=
  wf_state s' /\
  log_count s' = log_count s + Z.of_nat (length msgs) /\
  log_messages s' = log_messages s ++ msgs /\
  log_stamps s' = log_stamps s ++ map (fun _ => clock s) msgs /\
  clock s' = clock s /\ dht s' = dht s /\
  trace s' = trace s ++ map EvLogAppend msgs.

(** ** The rendered log line as the specification words it *)

(** "[HH:MM:SS] message", behind the two-space indent of the renderer. *)
Definition spec_entry_text (e : string * Z) : string :=
  ("  " ++ "[" ++ fmt_hms (snd e / 1000) ++ "] " ++ fst e)%string.

(** Every live entry is rendered on its own line in that format. *)
Definition every_entry_stamped : Prop :=
  forall (s : state) (i : nat) (e : string * Z),
    wf_state s -> count_ok s -> log_entries s !! i = Some e ->
    exists out line,
      plays_at print_log_section s out /\
      serial_lines out !! S i = Some line /\
      line_text line = Some (spec_entry_text e).

(** The log as [print_log_section] finds it in a cycle whose reading is
    invalid. *)
Definition error_log : state :=
  mkState ["Measurement received from DHT11."; "Sensor error: nan values.";
           WAIT_MSG; EmptyString; EmptyString; EmptyString]
          [0; 0; 0; 0; 0; 0] 3 0 [] [].

(** A log filled to capacity. *)
Definition full_log : state :=
  mkState ["a"; "b"; "c"; "d"; "e"; "f"] [1; 2; 3; 4; 5; 6] 6 7 [] [].

(** ** Expected events of a cycle with an invalid reading *)

Definition invalid_cycle_events (temp hum : cfloat) (now : Z) : list event :=
  cycle_start_events temp hum ++
  [EvLogAppend "Sensor error: nan values."; EvLogAppend WAIT_MSG] ++
  log_section_events
    [("Measurement received from DHT11.", now);
     ("Sensor error: nan values.", now);
     (WAIT_MSG, now)] ++
  instructions_events ++ blink_wait_events ++ [EvDelay 5000].

(** The order of the first steps of a cycle as the specification gives
    it: clear the log, log the reception, then read the sensor. *)
Definition spec_cycle_start (new : list event) : Prop :=
  exists temp hum rest,
    new = EvLogClear :: EvLogAppend "Measurement received from DHT11." ::
          EvReadTemperature temp :: EvReadHumidity hum :: rest.

(** A stand-in for the heat index of the sensor library. *)
Definition no_heat_index (temp hum : cfloat) (fahrenheit : bool) : cfloat :=
  temp.

(** ** Two-decimal agreement *)

(** [v] is a number that rounds, half up at the second decimal as
    [Serial.print(v, 2)] does, to [ref]. *)
Definition approx2 (v : cfloat) (ref : R) : Prop :=
  match v with
  | FNum x => (ref - 0.005 <= x < ref + 0.005)%R
  | FNaN => False
  end.

(** ** Further observations *)

(** The events of [blinkLed(times, delayMs)]: one on/off pair per turn. *)
Definition blink_events (times delayMs : Z) : list event :=
  concat (replicate (Z.to_nat times)
            [EvLed true; EvDelay delayMs; EvLed false; EvDelay delayMs]).

Definition is_delay (e : event) : bool :=
  match e with EvDelay _ => true | _ => false end.

(** The level the LED was last driven to, if it was driven at all. *)
Fixpoint last_led (tr : list event) : option bool :=
  match tr with
  | [] => None
  | e :: tr' =>
      match last_led tr' with
      | Some b => Some b
      | None => match e with EvLed b => Some b | _ => None end
      end
  end.

(** The numbers sent to the serial port, with their digit counts. *)
Definition printed_numbers (tr : list event) : list (cfloat * Z) :=
  flat_map (fun e => match e with
                     | EvPrintFloat v d => [(v, d)]
                     | _ => []
                     end) tr.

(** Reading back an unsigned decimal. *)
Definition read_dec (t : string) : option Z :=
  match NilZero.uint_of_string t with
  | Some u => Some (Z.of_N (N.of_uint u))
  | None => None
  end.

(** The integers from [lo], [n] of them. *)
Fixpoint Z_range (lo : Z) (n : nat) : list Z :=
  match n with
  | O => []
  | S n' => lo :: Z_range (lo + 1) n'
  end.

(** The seconds that the three fields of a timestamp stand for. *)
Definition read_hms (hh mm ss : string) : option Z :=
  match read_dec hh, read_dec mm, read_dec ss with
  | Some h, Some m, Some s => Some (3600 * h + 60 * m + s)
  | _, _, _ => None
  end.

(** The characters of a rendered line are at most [w]. *)
Definition line_within (w : nat) (line : list chunk) : Prop :=
  exists txt, line_text line = Some txt /\ (String.length txt <= w)%nat.

(** ** Expected events of a cycle with a valid reading *)

(** What [print_report] sends when [millis()] returns [now]. *)
Definition report_events (now : Z) (temp hum heatIndex dewPoint absHumidity
    specificHumidity mixingRatio vaporPressure satVaporPressure wetBulb
    humidex enthalpy : cfloat) : list event :=
  replicate 30 (EvPrintln EmptyString) ++
  [EvPrintln BORDER;
   EvPrintln "|         Arduino Weather Station Live Feed          |";
   EvPrint "|         Uptime: "; EvPrint (snprintf 16 (fmt_hms (now / 1000)));
   EvPrintln "                           |";
   EvPrintln BORDER;
   EvPrint "  Temp (C):           "; EvPrintFloat temp 2;
   EvPrintln "  (approx +/-2.00)";
   EvPrint "  Humidity (%):       "; EvPrintFloat hum 2;
   EvPrintln "  (approx +/-5.00)";
   EvPrint "  Heat Index (C):     "; EvPrintFloat heatIndex 2;
   EvPrintln EmptyString;
   EvPrint "  Humidex:            "; EvPrintFloat humidex 2;
   EvPrintln EmptyString;
   EvPrint "  Dew Point (C):      "; EvPrintFloat dewPoint 2;
   EvPrintln EmptyString;
   EvPrint "  Wet Bulb Temp (C):  "; EvPrintFloat wetBulb 2;
   EvPrintln EmptyString;
   EvPrint "  Enthalpy (kJ/kg):   "; EvPrintFloat enthalpy 2;
   EvPrintln EmptyString;
   EvPrintln EmptyString;
   EvPrint "  Abs Humidity (g/m3):"; EvPrintFloat absHumidity 2;
   EvPrintln EmptyString;
   EvPrint "  Specific Humidity:  "; EvPrintFloat specificHumidity 5;
   EvPrintln EmptyString;
   EvPrint "  Mixing Ratio (g/kg):"; EvPrintFloat mixingRatio 2;
   EvPrintln EmptyString;
   EvPrintln EmptyString;
   EvPrint "  Vapor Pressure (hPa):"; EvPrintFloat vaporPressure 2;
   EvPrintln EmptyString;
   EvPrint "  Sat Vapor Press.:   "; EvPrintFloat satVaporPressure 2;
   EvPrintln EmptyString;
   EvPrintln BORDER].

(** The clock when the report is printed and the last two entries are
    logged: the acknowledgement blink has taken 6 x 70 ms. *)
Definition after_ack (now : Z) : Z := (now + 420) mod 2 ^ 32.

Definition valid_log (now : Z) : list (string * Z) :=
  [("Measurement received from DHT11.", now);
   ("Calculations for metrics done.", now);
   ("Parsing data to serial output.", now);
   ("Successful display to serial monitor.", after_ack now);
   (WAIT_MSG, after_ack now)].

Definition valid_cycle_events (hi : cfloat -> cfloat -> bool -> cfloat)
    (temp hum : cfloat) (now : Z) : list event :=
  cycle_start_events temp hum ++
  [EvLogAppend "Calculations for metrics done.";
   EvLogAppend "Parsing data to serial output."] ++
  blink_events 3 70 ++
  report_events (after_ack now) temp hum (hi temp hum false)
    (Metrics.dewPoint temp hum) (Metrics.absHumidity temp hum)
    (Metrics.specificHumidity temp hum) (Metrics.mixingRatio temp hum)
    (Metrics.vaporPressure temp hum) (Metrics.satVaporPressure temp hum)
    (Metrics.wetBulb temp hum) (Metrics.humidex temp hum)
    (Metrics.enthalpy temp hum) ++
  [EvLogAppend "Successful display to serial monitor.";
   EvLogAppend WAIT_MSG] ++
  log_section_events (valid_log now) ++
  instructions_events ++ blink_wait_events.

(** The lines completed on the serial port. *)
Fixpoint println_count (tr : list event) : nat :=
  match tr with
  | [] => 0%nat
  | EvPrintln _ :: tr' => S (println_count tr')
  | _ :: tr' => println_count tr'
  end.

(** The events of one cycle, whichever branch it takes. *)
Definition cycle_events (hi : cfloat -> cfloat -> bool -> cfloat)
    (s : state) : list event :=
  if isnan (next_temp s) || isnan (next_hum s)
  then invalid_cycle_events (next_temp s) (next_hum s) (clock s)
  else valid_cycle_events hi (next_temp s) (next_hum s) (clock s).

(** The wait a cycle announces: the logged text says "WAIT FOR 10
    SECONDS", and the comments of [loop] say "Complete the 10 second
    wait" and "(10 seconds total)". *)
Definition announced_wait_ms : Z := 10000.

(** * Proofs *)

(** ** Arrays of [LOG_SIZE] cells *)

Lemma length6 {A} (l : list A) :
  Z.of_nat (length l) = LOG_SIZE ->
  exists a0 a1 a2 a3 a4 a5, l = [a0; a1; a2; a3; a4; a5].
Proof.
  unfold LOG_SIZE; intros H.
  do 6 (destruct l as [|? l]; [simpl in H; lia|]).
  destruct l; [|simpl in H; lia].
  repeat eexists.
Qed.

Ltac explode_arrays s H :=
  let Hh := fresh "Hh" in
  let Ht := fresh "Ht" in
  destruct H as [Hh Ht];
  destruct s as [hist times cnt clk inp tr]; simpl in *;
  apply length6 in Hh; destruct Hh as (h0 & h1 & h2 & h3 & h4 & h5 & ->);
  apply length6 in Ht; destruct Ht as (t0 & t1 & t2 & t3 & t4 & t5 & ->).

(** ** The two branches of [add_log] *)

Lemma add_log_append (msg : string) (s : state) :
  wf_state s -> 0 <= log_count s < LOG_SIZE ->
  add_log msg s =
    Some (tt, mkState (<[Z.to_nat (log_count s) := msg]> (log_history s))
                      (<[Z.to_nat (log_count s) := clock s]> (log_times s))
                      (log_count s + 1) (clock s) (dht s)
                      (trace s ++ [EvLogAppend msg])).
Proof.
  intros [Hh Ht] Hc.
  unfold add_log, bind, get_log_count.
  destruct (Z.ltb_spec (log_count s) LOG_SIZE) as [_|]; [|lia].
  unfold emit, set_log_history, set_log_times, millis, set_log_count; simpl.
  rewrite Hh.
  destruct (Z.ltb_spec (log_count s) 0); [lia|].
  destruct (Z.leb_spec LOG_SIZE (log_count s)); [lia|].
  simpl; rewrite Ht.
  destruct (Z.leb_spec LOG_SIZE (log_count s)); [lia|].
  reflexivity.
Qed.

Lemma add_log_evict (msg : string) (s : state) :
  wf_state s -> LOG_SIZE <= log_count s ->
  add_log msg s =
    Some (tt, mkState (drop 1 (log_history s) ++ [msg])
                      (drop 1 (log_times s) ++ [clock s])
                      (log_count s) (clock s) (dht s)
                      (trace s ++ [EvLogEvict msg])).
Proof.
  intros Hwf Hc.
  explode_arrays s Hwf.
  unfold add_log, bind, get_log_count; simpl.
  destruct (Z.ltb_spec cnt LOG_SIZE); [lia|].
  reflexivity.
Qed.

Lemma add_log_wf (msg : string) (s s' : state) :
  wf_state s -> 0 <= log_count s ->
  add_log msg s = Some (tt, s') -> wf_state s'.
Proof.
  intros Hwf Hc.
  destruct (Z.lt_ge_cases (log_count s) LOG_SIZE) as [Hlt|Hge].
  - rewrite add_log_append by (auto; lia).
    intros [= <-]; destruct Hwf as [Hh Ht]; split; simpl;
      rewrite length_insert; assumption.
  - rewrite add_log_evict by auto.
    intros [= <-]. explode_arrays s Hwf. split; reflexivity.
Qed.

(** Appending while there is room: the messages land in successive
    cells and nothing moves. *)
Lemma add_logs_room (msgs : list string) : forall s : state,
  wf_state s -> 0 <= log_count s ->
  log_count s + Z.of_nat (length msgs) <= LOG_SIZE ->
  exists s', runs (add_logs msgs) s s' /\ appended msgs s s'.
Proof.
  unfold runs, appended.
  induction msgs as [|m msgs IH]; intros s Hwf H0 Hroom.
  - exists s; simpl; rewrite !app_nil_r; repeat split; try apply Hwf; lia.
  - simpl length in Hroom.
    assert (Hlt : 0 <= log_count s < LOG_SIZE) by lia.
    pose proof (add_log_append m s Hwf Hlt) as Hstep.
    set (s1 := mkState _ _ _ _ _ _) in Hstep.
    assert (Hwf1 : wf_state s1) by (eapply add_log_wf; eauto; lia).
    destruct (IH s1 Hwf1) as (s' & Hrun & Hwf' & Hcnt & Hmsg & Hst & Hck & Hd & Htr);
      [simpl; lia | simpl; lia |].
    exists s'. simpl add_logs. unfold bind at 1. rewrite Hstep.
    split; [exact Hrun|]. split; [exact Hwf'|].
    destruct Hwf as [Hh Ht]. unfold LOG_SIZE in *.
    assert (Hn : (Z.to_nat (log_count s) < length (log_history s))%nat) by lia.
    assert (Hn' : (Z.to_nat (log_count s) < length (log_times s))%nat) by lia.
    assert (Hsucc : Z.to_nat (log_count s + 1) = S (Z.to_nat (log_count s))) by lia.
    repeat split.
    + rewrite Hcnt; simpl; lia.
    + rewrite Hmsg. unfold log_messages; simpl. rewrite Hsucc.
      rewrite (take_S_r _ _ m) by (apply list_lookup_insert_eq; exact Hn).
      rewrite take_insert_ge by lia. rewrite <- app_assoc. reflexivity.
    + rewrite Hst. unfold log_stamps; simpl. rewrite Hsucc.
      rewrite (take_S_r _ _ (clock s)) by (apply list_lookup_insert_eq; exact Hn').
      rewrite take_insert_ge by lia. rewrite <- app_assoc. reflexivity.
    + rewrite Hck; reflexivity.
    + rewrite Hd; reflexivity.
    + rewrite Htr; simpl. rewrite <- app_assoc. reflexivity.
Qed.

Lemma add_log_room (msg : string) (s : state) :
  wf_state s -> 0 <= log_count s < LOG_SIZE ->
  exists s', runs (add_log msg) s s' /\ appended [msg] s s'.
Proof.
  intros Hwf Hc.
  destruct (add_logs_room [msg] s Hwf) as (s' & Hrun & Happ);
    [lia | simpl; lia |].
  exists s'; split; [|exact Happ].
  unfold runs in *; simpl in Hrun; unfold bind, ret in Hrun.
  destruct (add_log msg s) as [[[] s1]|]; [exact Hrun | discriminate].
Qed.



(** ** Running programs step by step *)

Lemma bind_run {A B} (m : M A) (k : A -> M B) (s s1 : state) (a : A) :
  m s = Some (a, s1) -> bind m k s = k a s1.
Proof. unfold bind; intros ->; reflexivity. Qed.

Lemma after_events_nil (s : state) : after_events s [] = s.
Proof. destruct s; unfold after_events; simpl; rewrite app_nil_r; reflexivity. Qed.

Lemma after_events_app (s : state) (a b : list event) :
  after_events (after_events s a) b = after_events s (a ++ b).
Proof.
  unfold after_events, advance; simpl.
  rewrite fold_left_app, app_assoc; reflexivity.
Qed.

Lemma plays_at_bind (m k : M unit) (s : state) (a b : list event) :
  plays_at m s a -> plays_at k (after_events s a) b ->
  plays_at (m >> k) s (a ++ b).
Proof.
  unfold plays_at; intros Hm Hk.
  rewrite (bind_run _ _ _ _ _ Hm), Hk, after_events_app; reflexivity.
Qed.

Lemma plays_bind (m k : M unit) (a b : list event) :
  plays m a -> plays k b -> plays (m >> k) (a ++ b).
Proof. intros Hm Hk s; apply plays_at_bind; [apply Hm | apply Hk]. Qed.

Lemma plays_ret : plays (ret tt) [].
Proof. intros s; unfold plays_at, ret; rewrite after_events_nil; reflexivity. Qed.

Lemma plays_emit (e : event) : not_delay e = true -> plays (emit e) [e].
Proof. intros He s; destruct e; try discriminate He; reflexivity. Qed.

Lemma plays_delay (ms : Z) : plays (delay ms) [EvDelay ms].
Proof. intros s; reflexivity. Qed.

Lemma plays_for_loop_const (m : M unit) (evs : list event) (n : nat) :
  plays m evs -> forall i, plays (for_loop n i (fun _ => m)) (concat (replicate n evs)).
Proof.
  intros Hm; induction n as [|n IH]; intros i; simpl.
  - apply plays_ret.
  - apply plays_bind; [exact Hm | apply IH].
Qed.

Lemma plays_println (t : string) : plays (Serial_println t) [EvPrintln t].
Proof. apply plays_emit; reflexivity. Qed.

Lemma plays_print (t : string) : plays (Serial_print t) [EvPrint t].
Proof. apply plays_emit; reflexivity. Qed.

Lemma plays_print_float (v : cfloat) (d : Z) :
  plays (Serial_print_float v d) [EvPrintFloat v d].
Proof. apply plays_emit; reflexivity. Qed.

Lemma plays_led (b : bool) : plays (digitalWrite_LED b) [EvLed b].
Proof. apply plays_emit; reflexivity. Qed.

Lemma plays_print_instructions : plays print_instructions instructions_events.
Proof.
  unfold print_instructions.
  repeat (apply (plays_bind _ _ [_]); [apply plays_println|]).
  apply plays_println.
Qed.

Lemma plays_blinkLed_1 :
  plays (blinkLed 1 625) [EvLed true; EvDelay 625; EvLed false; EvDelay 625].
Proof.
  unfold blinkLed, for_range; simpl.
  apply (plays_bind _ _ [_; _; _; _] []); [|apply plays_ret].
  apply (plays_bind _ _ [_]); [apply plays_led|].
  apply (plays_bind _ _ [_]); [apply plays_delay|].
  apply (plays_bind _ _ [_]); [apply plays_led|].
  apply plays_delay.
Qed.

Lemma plays_blink_wait : plays blink_wait blink_wait_events.
Proof.
  unfold blink_wait, for_range.
  apply (plays_for_loop_const _ blink_turn 8).
  apply (plays_bind _ _ [_; _; _; _] [_]);
    [apply plays_blinkLed_1 | apply plays_delay].
Qed.

(** ** The renderer *)

Lemma print_log_entry_plays (s : state) (evs : list event) (i : Z) (h : string) (t : Z) :
  0 <= i ->
  log_history s !! Z.to_nat i = Some h ->
  log_times s !! Z.to_nat i = Some t ->
  plays_at (print_log_entry i) (after_events s evs) (entry_events (h, t)).
Proof.
  intros Hi Hh Ht.
  unfold plays_at, print_log_entry, entry_events, bind, get_log_history,
    get_log_times; simpl fst; simpl snd; simpl log_history; simpl log_times.
  destruct (Z.ltb_spec i 0); [lia|].
  rewrite Hh. destruct (String.eqb h WAIT_MSG).
  - unfold Serial_print, Serial_println, emit, after_events; simpl.
    rewrite <- app_assoc; reflexivity.
  - simpl log_times. rewrite Ht.
    unfold Serial_print, Serial_println, emit, after_events, fmt_entry; simpl.
    rewrite <- app_assoc; reflexivity.
Qed.

Lemma plays_at_count (k : Z -> M unit) (s : state) (evs : list event) :
  plays_at (k (log_count s)) s evs ->
  plays_at (do n <- get_log_count; k n) s evs.
Proof. trivial. Qed.

Lemma plays_at_start (m : M unit) (s : state) (evs : list event) :
  plays_at m (after_events s []) evs -> plays_at m s evs.
Proof. rewrite after_events_nil; trivial. Qed.

Lemma plays_from_bind (m k : M unit) (s : state) (pre a b : list event) :
  plays_at m (after_events s pre) a ->
  plays_at k (after_events s (pre ++ a)) b ->
  plays_at (m >> k) (after_events s pre) (a ++ b).
Proof.
  intros Hm Hk; apply plays_at_bind; [exact Hm|].
  rewrite after_events_app; exact Hk.
Qed.

Lemma plays_at_conv (m : M unit) (s : state) (a b : list event) :
  plays_at m s a -> a = b -> plays_at m s b.
Proof. intros H <-; exact H. Qed.

(** [print_log_section] sends the header, one line per live entry, the
    padding and a closing blank line, and changes nothing else. *)
Lemma print_log_section_run (s : state) :
  wf_state s -> count_ok s ->
  plays_at print_log_section s (log_section_events (log_entries s)).
Proof.
  intros Hwf Hc. unfold count_ok, LOG_SIZE in Hc.
  explode_arrays s Hwf.
  assert (Hcases : cnt = 0 \/ cnt = 1 \/ cnt = 2 \/ cnt = 3 \/ cnt = 4 \/
                   cnt = 5 \/ cnt = 6) by lia.
  assert (Hbody : forall i h t evs,
            0 <= i -> [h0; h1; h2; h3; h4; h5] !! Z.to_nat i = Some h ->
            [t0; t1; t2; t3; t4; t5] !! Z.to_nat i = Some t ->
            plays_at (print_log_entry i)
              (after_events (mkState [h0; h1; h2; h3; h4; h5]
                               [t0; t1; t2; t3; t4; t5] cnt clk inp tr) evs)
              (entry_events (h, t))).
  { intros; apply print_log_entry_plays; assumption. }
  unfold print_log_section.
  apply plays_at_start.
  destruct Hcases as [-> | [-> | [-> | [-> | [-> | [-> | ->]]]]]];
    (eapply plays_at_conv;
     [ eapply plays_from_bind; [apply plays_println|];
       eapply plays_from_bind;
       [ apply plays_at_count; unfold for_range; simpl for_loop;
         repeat (eapply plays_from_bind;
                 [apply Hbody; [lia | reflexivity | reflexivity]|]);
         apply plays_ret
       | eapply plays_from_bind;
         [ apply plays_at_count; unfold for_range;
           apply (plays_for_loop_const _ [EvPrintln BLANK]); apply plays_println
         | apply plays_println ] ]
     | reflexivity ]).
Qed.

(** ** Lines on the terminal *)

Lemma split_lines_entries (es : list (string * Z)) (rest : list event) :
  split_lines [] (flat_map entry_events es ++ rest) =
  map entry_line es ++ split_lines [] rest.
Proof.
  induction es as [|e es IH]; [reflexivity|].
  simpl flat_map. rewrite <- app_assoc. simpl map.
  unfold entry_events at 1, entry_line at 1.
  destruct (String.eqb (fst e) WAIT_MSG);
    simpl split_lines; rewrite IH; reflexivity.
Qed.

Lemma split_lines_println (n : nat) (t : string) (rest : list event) :
  split_lines [] (replicate n (EvPrintln t) ++ rest) =
  replicate n [Text t] ++ split_lines [] rest.
Proof. induction n as [|n IH]; simpl; [|rewrite IH]; reflexivity. Qed.

Lemma serial_lines_log_section (es : list (string * Z)) :
  serial_lines (log_section_events es) =
  [Text "Log & Status:                                    "] ::
  map entry_line es ++
  replicate (Z.to_nat (LOG_SIZE - Z.of_nat (length es))) [Text BLANK] ++
  [[Text BLANK]].
Proof.
  unfold serial_lines, log_section_events. simpl split_lines. f_equal.
  rewrite split_lines_entries, split_lines_println. reflexivity.
Qed.

Lemma length_log_entries (s : state) :
  wf_state s -> count_ok s ->
  length (log_entries s) = Z.to_nat (log_count s).
Proof.
  intros [Hh Ht] Hc. unfold count_ok, LOG_SIZE in *.
  unfold log_entries, log_messages, log_stamps.
  rewrite length_zip_with, !length_take. lia.
Qed.

Lemma substring_all (t : string) : forall n : nat,
  (String.length t <= n)%nat -> substring 0 n t = t.
Proof.
  induction t as [|c t IH]; intros n Hn.
  - destruct n; reflexivity.
  - destruct n as [|n]; simpl in Hn; [lia|].
    simpl. rewrite IH by lia. reflexivity.
Qed.

Lemma snprintf_fits (size : nat) (t : string) :
  (String.length t < size)%nat -> snprintf size t = t.
Proof. intros H; unfold snprintf; apply substring_all; lia. Qed.

(** ** Programs that only drive devices *)

Lemma runs_bind (m k : M unit) (s s1 s2 : state) :
  runs m s s1 -> runs k s1 s2 -> runs (m >> k) s s2.
Proof. unfold runs; intros Hm Hk; rewrite (bind_run _ _ _ _ _ Hm); exact Hk. Qed.

Lemma device_only_app (a b : list event) :
  device_only a -> device_only b -> device_only (a ++ b).
Proof. unfold device_only; intros Ha Hb; rewrite forallb_app, Ha, Hb; reflexivity. Qed.

Lemma device_prog_plays (m : M unit) (evs : list event) :
  plays m evs -> device_only evs -> device_prog m.
Proof. intros Hm Hd s; exists evs; split; [apply Hm | exact Hd]. Qed.

Lemma device_prog_bind (m k : M unit) :
  device_prog m -> device_prog k -> device_prog (m >> k).
Proof.
  intros Hm Hk s.
  destruct (Hm s) as (a & Ha & Da).
  destruct (Hk (after_events s a)) as (b & Hb & Db).
  exists (a ++ b); split; [apply plays_at_bind; assumption|].
  apply device_only_app; assumption.
Qed.

Lemma device_prog_millis (k : Z -> M unit) :
  (forall now, device_prog (k now)) -> device_prog (do now <- millis; k now).
Proof. intros Hk s; exact (Hk (clock s) s). Qed.

Lemma device_prog_ret : device_prog (ret tt).
Proof. apply (device_prog_plays _ []); [apply plays_ret | reflexivity]. Qed.

Lemma device_prog_for_loop (m : M unit) (n : nat) :
  device_prog m -> forall i, device_prog (for_loop n i (fun _ => m)).
Proof.
  intros Hm; induction n as [|n IH]; intros i; simpl.
  - apply device_prog_ret.
  - apply device_prog_bind; [exact Hm | apply IH].
Qed.

Lemma device_prog_println (t : string) : device_prog (Serial_println t).
Proof. eapply device_prog_plays; [apply plays_println | reflexivity]. Qed.

Lemma device_prog_print (t : string) : device_prog (Serial_print t).
Proof. eapply device_prog_plays; [apply plays_print | reflexivity]. Qed.

Lemma device_prog_print_float (v : cfloat) (d : Z) :
  device_prog (Serial_print_float v d).
Proof. eapply device_prog_plays; [apply plays_print_float | reflexivity]. Qed.

Lemma device_prog_led (b : bool) : device_prog (digitalWrite_LED b).
Proof. eapply device_prog_plays; [apply plays_led | reflexivity]. Qed.

Lemma device_prog_delay (ms : Z) : device_prog (delay ms).
Proof. eapply device_prog_plays; [apply plays_delay | reflexivity]. Qed.

Ltac device_step :=
  lazymatch goal with
  | |- device_prog (for_loop _ _ _) => apply device_prog_for_loop
  | |- device_prog (bind millis _) => apply device_prog_millis; intro; cbv zeta
  | |- device_prog (bind _ _) => apply device_prog_bind
  | |- device_prog (Serial_println _) => apply device_prog_println
  | |- device_prog (Serial_print _) => apply device_prog_print
  | |- device_prog (Serial_print_float _ _) => apply device_prog_print_float
  | |- device_prog (digitalWrite_LED _) => apply device_prog_led
  | |- device_prog (delay _) => apply device_prog_delay
  end.

Ltac device_steps := repeat device_step.

Lemma device_prog_blinkLed (times delayMs : Z) :
  device_prog (blinkLed times delayMs).
Proof. unfold blinkLed, for_range; device_steps. Qed.

Lemma device_prog_print_report (temp hum a b c d e f g h i j : cfloat) :
  device_prog (print_report temp hum a b c d e f g h i j).
Proof. unfold print_report, for_range, print_border; device_steps. Qed.

(** ** One cycle *)

Lemma appended_after (msgs : list string) (s s' : state) :
  appended msgs s s' -> wf_state s' /\ log_count s' = log_count s + Z.of_nat (length msgs).
Proof. intros (H1 & H2 & _); split; assumption. Qed.

Lemma read_temperature_run {B} (k : cfloat -> M B) (s : state) :
  bind dht_readTemperature k s =
  k (next_temp s)
    (mkState (log_history s) (log_times s) (log_count s) (clock s)
             (tl (dht s)) (trace s ++ [EvReadTemperature (next_temp s)])).
Proof.
  unfold dht_readTemperature, dht_read, bind, next_temp, emit, ret.
  destruct (dht s) eqn:E; simpl; rewrite ?E; reflexivity.
Qed.

Lemma read_humidity_run {B} (k : cfloat -> M B) (s : state) :
  bind dht_readHumidity k s =
  k (hd FNaN (dht s))
    (mkState (log_history s) (log_times s) (log_count s) (clock s)
             (tl (dht s)) (trace s ++ [EvReadHumidity (hd FNaN (dht s))])).
Proof.
  unfold dht_readHumidity, dht_read, bind, emit, ret.
  destruct (dht s) eqn:E; simpl; rewrite ?E; reflexivity.
Qed.

(** The common start of a cycle. *)
Lemma loop_start (hi : cfloat -> cfloat -> bool -> cfloat) (s : state) :
  wf_state s ->
  loop hi s =
  (if isnan (next_temp s) || isnan (next_hum s) then invalid_branch
   else valid_branch hi (next_temp s) (next_hum s)) (started s).
Proof.
  intros Hwf. unfold loop.
  rewrite read_temperature_run, read_humidity_run.
  cbn [dht log_history log_times log_count clock trace].
  erewrite bind_run by reflexivity.
  erewrite bind_run.
  2:{ apply add_log_append; [exact Hwf | unfold LOG_SIZE; simpl; lia]. }
  unfold started, cycle_start_events, next_temp, next_hum, rest_dht; simpl.
  rewrite <- !app_assoc. reflexivity.
Qed.

Lemma wf_started (s : state) : wf_state s -> wf_state (started s).
Proof.
  intros [Hh Ht]; split; unfold started; simpl; rewrite length_insert; assumption.
Qed.

Lemma appended_trans (a b : list string) (s s1 s2 : state) :
  appended a s s1 -> appended b s1 s2 -> appended (a ++ b) s s2.
Proof.
  intros (W1 & C1 & M1 & S1 & K1 & D1 & T1) (W2 & C2 & M2 & S2 & K2 & D2 & T2).
  unfold appended. rewrite length_app, !map_app.
  split; [exact W2|]. repeat split.
  - lia.
  - rewrite M2, M1, app_assoc; reflexivity.
  - rewrite S2, S1, K1, app_assoc; reflexivity.
  - congruence.
  - congruence.
  - rewrite T2, T1, app_assoc; reflexivity.
Qed.

Lemma appended_after_events (msgs : list string) (s s' : state) (evs : list event) :
  appended msgs (after_events s evs) s' ->
  wf_state s' /\
  log_count s' = log_count s + Z.of_nat (length msgs) /\
  log_messages s' = log_messages s ++ msgs /\
  dht s' = dht s /\
  trace s' = trace s ++ evs ++ map EvLogAppend msgs.
Proof.
  intros (W & C & Ms & _ & _ & D & T).
  split; [exact W|]. split; [exact C|]. split; [exact Ms|].
  split; [exact D|]. rewrite T; simpl. rewrite app_assoc; reflexivity.
Qed.

Lemma plays_closing_invalid :
  plays (print_instructions >> blink_wait >> delay 5000)
        (instructions_events ++ blink_wait_events ++ [EvDelay 5000]).
Proof.
  apply plays_bind; [apply plays_print_instructions|].
  apply plays_bind; [apply plays_blink_wait | apply plays_delay].
Qed.

Lemma plays_closing_valid :
  plays (print_instructions >> blink_wait)
        (instructions_events ++ blink_wait_events).
Proof.
  apply plays_bind; [apply plays_print_instructions | apply plays_blink_wait].
Qed.

(** The invalid-reading branch, from the state reached by [loop_start]. *)
Lemma invalid_branch_run (s1 : state) :
  wf_state s1 -> log_count s1 = 1 ->
  exists s2,
    appended ["Sensor error: nan values."; WAIT_MSG] s1 s2 /\
    runs invalid_branch s1
      (after_events s2
         (log_section_events (log_entries s2) ++
          instructions_events ++ blink_wait_events ++ [EvDelay 5000])).
Proof.
  intros Hwf Hc.
  destruct (add_log_room "Sensor error: nan values." s1 Hwf) as (sa & Ra & Aa);
    [unfold LOG_SIZE; lia|].
  destruct (appended_after _ _ _ Aa) as [Wa Ca]; simpl in Ca.
  destruct (add_log_room WAIT_MSG sa Wa) as (s2 & R2 & A2);
    [unfold LOG_SIZE; lia|].
  destruct (appended_after _ _ _ A2) as [W2 C2]; simpl in C2.
  exists s2; split; [exact (appended_trans _ _ _ _ _ Aa A2)|].
  unfold invalid_branch.
  eapply runs_bind; [exact Ra|]. eapply runs_bind; [exact R2|].
  apply plays_at_bind.
  - apply print_log_section_run; [exact W2 | unfold count_ok, LOG_SIZE; lia].
  - apply plays_closing_invalid.
Qed.

(** The valid-reading branch, from the state reached by [loop_start]. *)
Lemma valid_branch_run (hi : cfloat -> cfloat -> bool -> cfloat)
    (temp hum : cfloat) (s1 : state) :
  wf_state s1 -> log_count s1 = 1 ->
  exists s2 panel s3,
    appended ["Calculations for metrics done.";
              "Parsing data to serial output."] s1 s2 /\
    device_only panel /\
    appended ["Successful display to serial monitor."; WAIT_MSG]
             (after_events s2 panel) s3 /\
    runs (valid_branch hi temp hum) s1
      (after_events s3
         (log_section_events (log_entries s3) ++
          instructions_events ++ blink_wait_events)).
Proof.
  intros Hwf Hc.
  destruct (add_log_room "Calculations for metrics done." s1 Hwf)
    as (sa & Ra & Aa); [unfold LOG_SIZE; lia|].
  destruct (appended_after _ _ _ Aa) as [Wa Ca]; simpl in Ca.
  destruct (add_log_room "Parsing data to serial output." sa Wa)
    as (s2 & R2 & A2); [unfold LOG_SIZE; lia|].
  destruct (appended_after _ _ _ A2) as [W2 C2]; simpl in C2.
  destruct (device_prog_blinkLed 3 70 s2) as (e1 & P1 & D1).
  destruct (device_prog_print_report temp hum (hi temp hum false)
              (Metrics.dewPoint temp hum) (Metrics.absHumidity temp hum)
              (Metrics.specificHumidity temp hum) (Metrics.mixingRatio temp hum)
              (Metrics.vaporPressure temp hum)
              (Metrics.satVaporPressure temp hum) (Metrics.wetBulb temp hum)
              (Metrics.humidex temp hum) (Metrics.enthalpy temp hum)
              (after_events s2 e1)) as (e2 & P2 & D2).
  unfold plays_at in P2; rewrite after_events_app in P2.
  set (sp := after_events s2 (e1 ++ e2)) in *.
  assert (Wp : wf_state sp) by exact W2.
  destruct (add_log_room "Successful display to serial monitor." sp Wp)
    as (sb & Rb & Ab); [unfold LOG_SIZE; simpl; lia|].
  destruct (appended_after _ _ _ Ab) as [Wb Cb]; simpl in Cb.
  destruct (add_log_room WAIT_MSG sb Wb) as (s3 & R3 & A3);
    [unfold LOG_SIZE; lia|].
  destruct (appended_after _ _ _ A3) as [W3 C3]; simpl in C3.
  exists s2, (e1 ++ e2), s3.
  split; [exact (appended_trans _ _ _ _ _ Aa A2)|].
  split; [apply device_only_app; assumption|].
  split; [exact (appended_trans _ _ _ _ _ Ab A3)|].
  unfold valid_branch; cbv zeta.
  eapply runs_bind; [exact Ra|]. eapply runs_bind; [exact R2|].
  eapply runs_bind; [exact P1|]. eapply runs_bind; [exact P2|].
  eapply runs_bind; [exact Rb|]. eapply runs_bind; [exact R3|].
  apply plays_at_bind.
  - apply print_log_section_run; [exact W3 | unfold count_ok, LOG_SIZE; lia].
  - apply plays_closing_valid.
Qed.

(** * The claims *)

(** ** Rolling log *)

(** C3: seven messages appended to an empty log of capacity six leave
    six entries, the first being the second message and the last the
    seventh; and an append to a full log drops the entry of cell 0,
    moves every other entry down by one cell and puts the new entry in
    the last cell, so the entries stay in insertion order. *)
Theorem C3_fifo_eviction (m1 m2 m3 m4 m5 m6 m7 msg : string) (s sf : state) :
  wf_state s -> log_count s = 0 ->
  wf_state sf -> log_count sf = LOG_SIZE ->
  (exists s',
     runs (add_logs [m1; m2; m3; m4; m5; m6; m7]) s s' /\
     log_count s' = 6 /\
     log_messages s' = [m2; m3; m4; m5; m6; m7] /\
     log_messages s' !! 0%nat = Some m2 /\
     log_messages s' !! 5%nat = Some m7) /\
  (exists sf',
     runs (add_log msg) sf sf' /\
     log_count sf' = LOG_SIZE /\
     log_messages sf' = drop 1 (log_messages sf) ++ [msg] /\
     log_stamps sf' = drop 1 (log_stamps sf) ++ [clock sf] /\
     (forall i : nat, (i < 5)%nat ->
        log_history sf' !! i = log_history sf !! S i /\
        log_times sf' !! i = log_times sf !! S i) /\
     log_history sf' !! 5%nat = Some msg /\
     log_times sf' !! 5%nat = Some (clock sf) /\
     trace sf' = trace sf ++ [EvLogEvict msg]).
Proof.
  intros Hwf Hc Hwff Hcf. split.
  - explode_arrays s Hwf. subst cnt.
    eexists. split; [unfold runs; lazy; reflexivity|]. repeat split.
  - eexists. split; [apply add_log_evict; [exact Hwff | lia]|].
    explode_arrays sf Hwff. subst cnt.
    unfold log_messages, log_stamps; simpl.
    repeat split; try reflexivity;
      do 5 (destruct i as [|i]; [reflexivity|]); lia.
Qed.

Lemma C3_fifo_eviction_witness :
  wf_state (boot []) /\ log_count (boot []) = 0 /\
  wf_state full_log /\ log_count full_log = LOG_SIZE /\
  exists s', runs (add_logs ["1"; "2"; "3"; "4"; "5"; "6"; "7"]) (boot []) s' /\
             log_messages s' = ["2"; "3"; "4"; "5"; "6"; "7"].
Proof.
  assert (W : wf_state (boot [])) by (split; reflexivity).
  assert (Wf : wf_state full_log) by (split; reflexivity).
  split; [exact W|]. split; [reflexivity|].
  split; [exact Wf|]. split; [reflexivity|].
  destruct (C3_fifo_eviction "1" "2" "3" "4" "5" "6" "7" "g" (boot []) full_log
              W eq_refl Wf eq_refl) as [(s' & Hrun & _ & Hm & _) _].
  exists s'; split; assumption.
Defined.

(** C5: after the log is cleared, at most six calls of [add_log] evict
    nothing: every message is kept, in the order of the calls, the i-th
    message in cell i. *)
Theorem C5_no_eviction_up_to_capacity (msgs : list string) (s : state) :
  wf_state s -> (length msgs <= 6)%nat ->
  exists s',
    runs (clear_log >> add_logs msgs) s s' /\
    log_count s' = Z.of_nat (length msgs) /\
    log_messages s' = msgs /\
    (forall (i : nat) (m : string),
       msgs !! i = Some m -> log_history s' !! i = Some m) /\
    trace s' = trace s ++ EvLogClear :: map EvLogAppend msgs.
Proof.
  intros Hwf Hlen.
  set (s0 := mkState (log_history s) (log_times s) 0 (clock s) (dht s)
                     (trace s ++ [EvLogClear])).
  assert (Hclear : runs clear_log s s0) by reflexivity.
  destruct (add_logs_room msgs s0) as (s' & Hrun & W & C & Ms & _ & _ & _ & T);
    [exact Hwf | simpl; lia | unfold LOG_SIZE; simpl; lia |].
  simpl in C, T. unfold log_messages at 2 in Ms; simpl in Ms.
  exists s'. split; [eapply runs_bind; eassumption|].
  split; [lia|]. split; [exact Ms|]. split.
  - intros i m Hi.
    assert (Hlt : (i < length msgs)%nat) by (eapply lookup_lt_Some; exact Hi).
    rewrite <- Hi, <- Ms. unfold log_messages.
    symmetry; apply lookup_take_lt. lia.
  - rewrite T, <- app_assoc; reflexivity.
Qed.

Lemma C5_no_eviction_up_to_capacity_witness :
  wf_state full_log /\ (length ["x"; "y"; "z"] <= 6)%nat /\
  exists s', runs (clear_log >> add_logs ["x"; "y"; "z"]) full_log s' /\
             log_messages s' = ["x"; "y"; "z"].
Proof.
  assert (Wf : wf_state full_log) by (split; reflexivity).
  assert (L : (length ["x"; "y"; "z"] <= 6)%nat) by (simpl; lia).
  split; [exact Wf|]. split; [exact L|].
  destruct (C5_no_eviction_up_to_capacity ["x"; "y"; "z"] full_log Wf L)
    as (s' & Hrun & _ & Hm & _).
  exists s'; split; assumption.
Defined.

(** C9: the fill count stays between 0 and [LOG_SIZE]: [add_log] and the
    clear at the top of a cycle both keep it there; [add_log] on a full
    log leaves it at 6; and [add_log] never touches a cell outside the
    six of either array (it runs without undefined behaviour and the
    arrays keep their size). *)
Theorem C9_log_count_invariant (msg : string) (s : state) :
  wf_state s -> count_ok s ->
  (exists s', runs (add_log msg) s s' /\ wf_state s' /\ count_ok s' /\
              (log_count s = LOG_SIZE -> log_count s' = LOG_SIZE)) /\
  (exists s0, runs clear_log s s0 /\ wf_state s0 /\ count_ok s0 /\
              log_count s0 = 0).
Proof.
  intros Hwf Hc. unfold count_ok in *. split.
  - destruct (Z.lt_ge_cases (log_count s) LOG_SIZE) as [Hlt|Hge].
    + destruct (add_log_room msg s Hwf) as (s' & Hrun & W & C & _); [lia|].
      exists s'. simpl in C. split; [exact Hrun|]. split; [exact W|].
      unfold LOG_SIZE in *; lia.
    + eexists. split; [apply add_log_evict; assumption|].
      split; [|simpl; unfold LOG_SIZE in *; lia].
      eapply add_log_wf; [exact Hwf | lia | apply add_log_evict; assumption].
  - eexists. split; [reflexivity|]. split; [exact Hwf|].
    simpl. unfold LOG_SIZE. repeat split; lia.
Qed.

Lemma C9_log_count_invariant_witness :
  wf_state full_log /\ count_ok full_log /\
  exists s', runs (add_log "g") full_log s' /\ count_ok s'.
Proof.
  assert (Wf : wf_state full_log) by (split; reflexivity).
  assert (Cf : count_ok full_log) by (unfold count_ok, LOG_SIZE; simpl; lia).
  split; [exact Wf|]. split; [exact Cf|].
  destruct (C9_log_count_invariant "g" full_log Wf Cf)
    as [(s' & Hrun & _ & Hc & _) _].
  exists s'; split; assumption.
Defined.

(** ** Renderer *)

Lemma lookup_map_list {A B} (f : A -> B) (l : list A) (i : nat) :
  map f l !! i = option_map f (l !! i).
Proof.
  revert i; induction l as [|a l IH]; intros [|i]; simpl; auto.
Qed.

(** What [print_log_section] shows, line by line. *)
Lemma log_section_lines (s : state) :
  wf_state s -> count_ok s ->
  exists out,
    plays_at print_log_section s out /\
    serial_lines out =
      [Text "Log & Status:                                    "] ::
      map entry_line (log_entries s) ++
      replicate (Z.to_nat (LOG_SIZE - log_count s)) [Text BLANK] ++
      [[Text BLANK]].
Proof.
  intros Hwf Hc. exists (log_section_events (log_entries s)).
  split; [apply print_log_section_run; assumption|].
  rewrite serial_lines_log_section, length_log_entries by assumption.
  unfold count_ok in Hc. rewrite Z2Nat.id by lia. reflexivity.
Qed.

(** C6: whatever the number of entries, from 0 to 6, the log section
    is eight lines: the header, one line per entry, a blank line per
    free slot and a closing blank line. *)
Theorem C6_log_section_line_count (s : state) :
  wf_state s -> count_ok s ->
  exists out,
    plays_at print_log_section s out /\
    length (serial_lines out) = 8%nat /\
    serial_lines out =
      [Text "Log & Status:                                    "] ::
      map entry_line (log_entries s) ++
      replicate (Z.to_nat (LOG_SIZE - log_count s)) [Text BLANK] ++
      [[Text BLANK]].
Proof.
  intros Hwf Hc.
  destruct (log_section_lines s Hwf Hc) as (out & Hplay & Hlines).
  exists out. split; [exact Hplay|]. split; [|exact Hlines].
  rewrite Hlines. simpl length.
  rewrite length_app, length_map, length_app, length_replicate.
  rewrite length_log_entries by assumption.
  unfold count_ok, LOG_SIZE in *. simpl length. lia.
Qed.

Lemma C6_log_section_line_count_witness :
  wf_state error_log /\ count_ok error_log /\
  exists out, plays_at print_log_section error_log out /\
              length (serial_lines out) = 8%nat.
Proof.
  assert (W : wf_state error_log) by (split; reflexivity).
  assert (C : count_ok error_log) by (unfold count_ok, LOG_SIZE; simpl; lia).
  split; [exact W|]. split; [exact C|].
  destruct (C6_log_section_line_count error_log W C) as (out & Hp & Hl & _).
  exists out; split; assumption.
Defined.

Lemma append_empty_r (t : string) : (t ++ EmptyString)%string = t.
Proof.
  induction t as [|c t IH]; [reflexivity|].
  change (String c (t ++ EmptyString)%string = String c t). rewrite IH; reflexivity.
Qed.

Lemma line_text_entry (a b : string) :
  line_text [Text a; Text b] = Some (a ++ b)%string.
Proof. cbn [line_text]; rewrite append_empty_r; reflexivity. Qed.

Lemma plays_at_inj (m : M unit) (s : state) (a b : list event) :
  plays_at m s a -> plays_at m s b -> a = b.
Proof.
  unfold plays_at; intros Ha Hb. rewrite Ha in Hb.
  assert (Ht : trace (after_events s a) = trace (after_events s b))
    by congruence.
  unfold after_events in Ht; cbn [trace] in Ht.
  eapply app_inv_head; exact Ht.
Qed.

(** The line of entry [i] of the log section. *)
Lemma log_section_entry_line (s : state) (i : nat) (e : string * Z) :
  wf_state s -> count_ok s -> log_entries s !! i = Some e ->
  exists out,
    plays_at print_log_section s out /\
    serial_lines out !! S i = Some (entry_line e).
Proof.
  intros Hwf Hc He.
  destruct (log_section_lines s Hwf Hc) as (out & Hplay & Hlines).
  exists out; split; [exact Hplay|].
  rewrite Hlines. simpl.
  rewrite lookup_app_l.
  - rewrite lookup_map_list, He; reflexivity.
  - rewrite length_map. eapply lookup_lt_Some; exact He.
Qed.

(** C4, against the claim: the wait marker of the log of an invalid
    cycle is printed bare, with no timestamp. *)
Lemma C4_counterexample : ~ every_entry_stamped.
Proof.
  intros H.
  assert (W : wf_state error_log) by (split; reflexivity).
  assert (C : count_ok error_log) by (unfold count_ok, LOG_SIZE; simpl; lia).
  destruct (H error_log 2%nat (WAIT_MSG, 0) W C eq_refl)
    as (out & line & Hplay & Hline & Htext).
  pose proof (print_log_section_run error_log W C) as Hrun.
  assert (Hout : out = log_section_events (log_entries error_log))
    by (eapply plays_at_inj; eassumption).
  subst out. rewrite serial_lines_log_section in Hline.
  vm_compute in Hline. injection Hline as <-.
  vm_compute in Htext. discriminate Htext.
Qed.

(** C4, as the code has it: an entry that is not the wait marker is
    printed on its own line as the indent, the timestamp in brackets and
    the message, cut to the 63 characters of the buffer; when the text
    fits the buffer the line is exactly [  [HH:MM:SS] message]; the wait
    marker is printed as the indent and its bare text. *)
Theorem C4_entry_line (s : state) (i : nat) (msg : string) (t : Z) :
  wf_state s -> count_ok s -> log_entries s !! i = Some (msg, t) ->
  exists out line,
    plays_at print_log_section s out /\
    serial_lines out !! S i = Some line /\
    (msg <> WAIT_MSG ->
       line_text line =
         Some ("  " ++ snprintf 64 ("[" ++ fmt_hms (t / 1000) ++ "] " ++ msg))%string) /\
    (msg <> WAIT_MSG ->
     (String.length ("[" ++ fmt_hms (t / 1000) ++ "] " ++ msg) <= 63)%nat ->
       line_text line =
         Some ("  " ++ "[" ++ fmt_hms (t / 1000) ++ "] " ++ msg)%string) /\
    (msg = WAIT_MSG -> line_text line = Some ("  " ++ WAIT_MSG)%string).
Proof.
  intros Hwf Hc He.
  destruct (log_section_entry_line s i (msg, t) Hwf Hc He) as (out & Hplay & Hline).
  exists out, (entry_line (msg, t)).
  split; [exact Hplay|]. split; [exact Hline|].
  unfold entry_line, fmt_entry; simpl fst; simpl snd.
  rewrite line_text_entry.
  destruct (String.eqb_spec msg WAIT_MSG) as [Heq|Hne].
  - split; [intros; contradiction|]. split; [intros; contradiction|].
    intros _; subst msg; reflexivity.
  - split; [reflexivity|]. split; [|intros; contradiction].
    intros _ Hfit. rewrite snprintf_fits by lia. reflexivity.
Qed.

Lemma C4_entry_line_witness :
  wf_state error_log /\ count_ok error_log /\
  log_entries error_log !! 0%nat =
    Some ("Measurement received from DHT11.", 0) /\
  exists out line,
    plays_at print_log_section error_log out /\
    serial_lines out !! 1%nat = Some line /\
    line_text line = Some "  [00:00:00] Measurement received from DHT11.".
Proof.
  assert (W : wf_state error_log) by (split; reflexivity).
  assert (C : count_ok error_log) by (unfold count_ok, LOG_SIZE; simpl; lia).
  split; [exact W|]. split; [exact C|]. split; [reflexivity|].
  destruct (C4_entry_line error_log 0%nat "Measurement received from DHT11." 0
              W C eq_refl) as (out & line & Hp & Hl & _ & Hfit & _).
  exists out, line. split; [exact Hp|]. split; [exact Hl|].
  apply Hfit; [discriminate | vm_compute; lia].
Defined.

(** ** The acquisition cycle *)

Lemma started_log (s : state) :
  wf_state s ->
  log_messages (started s) = ["Measurement received from DHT11."] /\
  log_stamps (started s) = [clock s].
Proof. intros Hwf; explode_arrays s Hwf; split; reflexivity. Qed.

Lemma after_rendering_last (pre post : list event) (e : event) :
  is_serial e = true -> existsb is_serial post = false ->
  after_rendering (pre ++ e :: post) = post.
Proof.
  intros He Hpost; induction pre as [|a pre IH]; simpl.
  - rewrite Hpost, He; reflexivity.
  - rewrite existsb_app; simpl; rewrite He, orb_true_r; simpl. exact IH.
Qed.

Lemma closing_wait_instructions (pre post : list event) :
  existsb is_serial post = false ->
  closing_wait (pre ++ instructions_events ++ post) = total_delay post.
Proof.
  intros Hpost. unfold closing_wait, instructions_events.
  change (pre ++ [EvPrintln BORDER;
            EvPrintln "| HexKernel | GitHub Repository                      |";
            EvPrintln "| github.com/HexKernel/Arduino-DHT11-Weather-Station |";
            EvPrintln BORDER] ++ post)
    with (pre ++ [EvPrintln BORDER;
            EvPrintln "| HexKernel | GitHub Repository                      |";
            EvPrintln "| github.com/HexKernel/Arduino-DHT11-Weather-Station |"] ++
          EvPrintln BORDER :: post).
  rewrite app_assoc, after_rendering_last by (reflexivity || exact Hpost).
  reflexivity.
Qed.

Lemma add_log_calls_app (a b : list event) :
  add_log_calls (a ++ b) = (add_log_calls a + add_log_calls b)%nat.
Proof. unfold add_log_calls; rewrite filter_app, length_app; reflexivity. Qed.

Lemma no_evict_app (a b : list event) :
  no_evict a -> no_evict b -> no_evict (a ++ b).
Proof. unfold no_evict; intros Ha Hb; rewrite forallb_app, Ha, Hb; reflexivity. Qed.

Lemma device_only_quiet (evs : list event) :
  device_only evs -> add_log_calls evs = 0%nat /\ no_evict evs.
Proof.
  unfold device_only, add_log_calls, no_evict.
  induction evs as [|e evs IH]; [split; reflexivity|].
  simpl; intros H; apply andb_prop in H as [He Hevs].
  destruct (IH Hevs) as [IH1 IH2].
  destruct e; try discriminate He; simpl; split; assumption.
Qed.

Lemma device_only_log_section (es : list (string * Z)) :
  device_only (log_section_events es).
Proof.
  unfold log_section_events.
  apply (device_only_app [_]); [reflexivity|].
  apply device_only_app; [|apply device_only_app; [|reflexivity]].
  - induction es as [|e es IH]; [reflexivity|].
    simpl flat_map. apply device_only_app; [|exact IH].
    unfold entry_events; destruct (String.eqb _ _); reflexivity.
  - induction (Z.to_nat _) as [|n IH]; [reflexivity | exact IH].
Qed.

(** A cycle with an invalid reading. *)
Lemma loop_invalid (hi : cfloat -> cfloat -> bool -> cfloat) (s : state) :
  wf_state s -> isnan (next_temp s) || isnan (next_hum s) = true ->
  exists s',
    runs (loop hi) s s' /\ wf_state s' /\ log_count s' = 3 /\
    dht s' = rest_dht s /\
    log_entries s' =
      [("Measurement received from DHT11.", clock s);
       ("Sensor error: nan values.", clock s);
       (WAIT_MSG, clock s)] /\
    trace s' =
      trace s ++ invalid_cycle_events (next_temp s) (next_hum s) (clock s).
Proof.
  intros Hwf Hnan.
  destruct (started_log s Hwf) as [Hm0 Hs0].
  destruct (invalid_branch_run (started s) (wf_started s Hwf) eq_refl)
    as (s2 & (W2 & C2 & M2 & S2 & K2 & D2 & T2) & Hrun).
  rewrite Hm0 in M2. rewrite Hs0 in S2. simpl in C2, M2, S2, K2, D2, T2.
  assert (He : log_entries s2 =
               [("Measurement received from DHT11.", clock s);
                ("Sensor error: nan values.", clock s); (WAIT_MSG, clock s)]).
  { unfold log_entries; rewrite M2, S2; reflexivity. }
  eexists. split.
  { unfold runs. rewrite loop_start, Hnan by exact Hwf. exact Hrun. }
  split; [exact W2|]. split; [exact C2|]. split; [exact D2|].
  split; [exact He|].
  simpl. rewrite T2, He. unfold invalid_cycle_events.
  rewrite <- !app_assoc. reflexivity.
Qed.

(** A cycle with a valid reading. *)
Lemma loop_valid (hi : cfloat -> cfloat -> bool -> cfloat) (s : state) :
  wf_state s -> isnan (next_temp s) || isnan (next_hum s) = false ->
  exists s' panel es,
    runs (loop hi) s s' /\ wf_state s' /\ log_count s' = 5 /\
    dht s' = rest_dht s /\ device_only panel /\
    log_messages s' =
      ["Measurement received from DHT11."; "Calculations for metrics done.";
       "Parsing data to serial output.";
       "Successful display to serial monitor."; WAIT_MSG] /\
    trace s' =
      trace s ++ cycle_start_events (next_temp s) (next_hum s) ++
      [EvLogAppend "Calculations for metrics done.";
       EvLogAppend "Parsing data to serial output."] ++
      panel ++
      [EvLogAppend "Successful display to serial monitor.";
       EvLogAppend WAIT_MSG] ++
      log_section_events es ++ instructions_events ++ blink_wait_events.
Proof.
  intros Hwf Hok.
  destruct (started_log s Hwf) as [Hm0 Hs0].
  destruct (valid_branch_run hi (next_temp s) (next_hum s) (started s)
              (wf_started s Hwf) eq_refl)
    as (s2 & panel & s3 & (W2 & C2 & M2 & S2 & K2 & D2 & T2) & Hdev & A3 & Hrun).
  destruct (appended_after_events _ _ _ _ A3) as (W3 & C3 & M3 & D3 & T3).
  rewrite Hm0 in M2. simpl in C2, M2, D2, T2, C3.
  exists (after_events s3 (log_section_events (log_entries s3) ++
                           instructions_events ++ blink_wait_events)),
         panel, (log_entries s3).
  split.
  { unfold runs. rewrite loop_start, Hok by exact Hwf. exact Hrun. }
  split; [exact W3|]. split; [simpl; lia|].
  split; [simpl; congruence|]. split; [exact Hdev|].
  split; [change (log_messages s3 = ["Measurement received from DHT11.";
            "Calculations for metrics done."; "Parsing data to serial output.";
            "Successful display to serial monitor."; WAIT_MSG]);
          rewrite M3, M2; reflexivity|].
  simpl. rewrite T3, T2. simpl. rewrite <- !app_assoc. reflexivity.
Qed.

(** Every cycle runs to its end and leaves a state from which the next
    one can start. *)
Lemma loop_total (hi : cfloat -> cfloat -> bool -> cfloat) (s : state) :
  wf_state s -> exists s', runs (loop hi) s s' /\ wf_state s'.
Proof.
  intros Hwf.
  destruct (isnan (next_temp s) || isnan (next_hum s)) eqn:Hnan.
  - destruct (loop_invalid hi s Hwf Hnan) as (s' & Hrun & W & _).
    exists s'; split; assumption.
  - destruct (loop_valid hi s Hwf Hnan) as (s' & ? & ? & Hrun & W & _).
    exists s'; split; assumption.
Qed.

(** C2, evaluated on the code: when the temperature or the humidity
    read is NaN, the cycle logs the sensor error and the wait marker,
    prints the log section and the instructions and nothing else (no
    metric is printed, and the heat-index routine of the library has no
    influence on the cycle), and ends in a state from which the next
    cycle runs; but the delays it then requests add up to 20000 ms, not
    to the 10 s window that the sketch announces. *)
Theorem C2_invalid_reading_cycle
    (hi : cfloat -> cfloat -> bool -> cfloat) (s : state) :
  wf_state s -> isnan (next_temp s) || isnan (next_hum s) = true ->
  exists s' new,
    runs (loop hi) s s' /\
    trace s' = trace s ++ new /\
    new =
      cycle_start_events (next_temp s) (next_hum s) ++
      [EvLogAppend "Sensor error: nan values."; EvLogAppend WAIT_MSG] ++
      log_section_events (log_entries s') ++
      instructions_events ++ blink_wait_events ++ [EvDelay 5000] /\
    map fst (log_entries s') =
      ["Measurement received from DHT11."; "Sensor error: nan values.";
       WAIT_MSG] /\
    forallb (fun e => negb (is_metric_output e)) new = true /\
    serial_lines new =
      [Text "Log & Status:                                    "] ::
      map entry_line (log_entries s') ++
      replicate 3 [Text BLANK] ++ [[Text BLANK]] ++
      map (fun t => [Text t])
        [BORDER; "| HexKernel | GitHub Repository                      |";
         "| github.com/HexKernel/Arduino-DHT11-Weather-Station |"; BORDER] /\
    total_delay new = 20000 /\
    total_delay new <> announced_wait_ms /\
    (forall hi', loop hi' s = loop hi s) /\
    wf_state s' /\
    (forall hi', exists s'', runs (loop hi') s' s'').
Proof.
  intros Hwf Hnan.
  destruct (loop_invalid hi s Hwf Hnan) as (s' & Hrun & W & C & D & E & T).
  exists s', (invalid_cycle_events (next_temp s) (next_hum s) (clock s)).
  split; [exact Hrun|]. split; [exact T|].
  split; [rewrite E; reflexivity|].
  split; [rewrite E; reflexivity|].
  split; [reflexivity|]. split; [rewrite E; reflexivity|].
  split; [reflexivity|].
  split; [unfold announced_wait_ms; discriminate|].
  split; [intros hi'; rewrite !loop_start, Hnan by exact Hwf; reflexivity|].
  split; [exact W|].
  intros hi'. destruct (loop_total hi' s' W) as (s'' & Hrun' & _).
  exists s''; exact Hrun'.
Qed.

Lemma C2_invalid_reading_cycle_witness :
  wf_state (boot [FNaN; FNum 43]) /\
  isnan (next_temp (boot [FNaN; FNum 43])) ||
    isnan (next_hum (boot [FNaN; FNum 43])) = true /\
  exists s' new,
    runs (loop no_heat_index) (boot [FNaN; FNum 43]) s' /\
    trace s' = new /\ total_delay new = 20000.
Proof.
  assert (W : wf_state (boot [FNaN; FNum 43])) by (split; reflexivity).
  split; [exact W|]. split; [reflexivity|].
  destruct (C2_invalid_reading_cycle no_heat_index (boot [FNaN; FNum 43]) W eq_refl)
    as (s' & new & Hrun & Htr & _ & _ & _ & _ & Hd & _).
  exists s', new. split; [exact Hrun|]. split; [exact Htr | exact Hd].
Defined.

(** C8, against the claim: in a cycle started from the initial state
    the sensor is read before the log is cleared. *)
Lemma C8_counterexample :
  exists s', runs (loop no_heat_index) (boot [FNum 27; FNum 43]) s' /\
             ~ spec_cycle_start (trace s').
Proof.
  assert (W : wf_state (boot [FNum 27; FNum 43])) by (split; reflexivity).
  destruct (loop_valid no_heat_index (boot [FNum 27; FNum 43]) W eq_refl)
    as (s' & panel & es & Hrun & _ & _ & _ & _ & _ & T).
  exists s'; split; [exact Hrun|].
  intros (temp & hum & rest & Hspec).
  rewrite T in Hspec; simpl in Hspec. discriminate Hspec.
Qed.

(** C8, as the code has it: every cycle begins by reading the
    temperature and the humidity, then clears the log, then appends the
    "measurement received" entry, which is then the only entry. *)
Theorem C8_cycle_start (hi : cfloat -> cfloat -> bool -> cfloat) (s : state) :
  wf_state s ->
  exists s' rest,
    runs (loop hi) s s' /\
    trace s' =
      trace s ++
      [EvReadTemperature (next_temp s); EvReadHumidity (next_hum s);
       EvLogClear; EvLogAppend "Measurement received from DHT11."] ++ rest /\
    loop hi s =
      (if isnan (next_temp s) || isnan (next_hum s) then invalid_branch
       else valid_branch hi (next_temp s) (next_hum s)) (started s) /\
    log_messages (started s) = ["Measurement received from DHT11."] /\
    trace (started s) =
      trace s ++
      [EvReadTemperature (next_temp s); EvReadHumidity (next_hum s);
       EvLogClear; EvLogAppend "Measurement received from DHT11."].
Proof.
  intros Hwf.
  assert (Hrun : exists s' rest, runs (loop hi) s s' /\
            trace s' = trace s ++
              cycle_start_events (next_temp s) (next_hum s) ++ rest).
  { destruct (isnan (next_temp s) || isnan (next_hum s)) eqn:Hnan.
    - destruct (loop_invalid hi s Hwf Hnan) as (s' & Hrun & _ & _ & _ & _ & T).
      exists s'; eexists; split; [exact Hrun|].
      rewrite T; unfold invalid_cycle_events; reflexivity.
    - destruct (loop_valid hi s Hwf Hnan)
        as (s' & panel & es & Hrun & _ & _ & _ & _ & _ & T).
      exists s'; eexists; split; [exact Hrun|]. rewrite T; reflexivity. }
  destruct Hrun as (s' & rest & Hrun & T).
  exists s', rest. split; [exact Hrun|]. split; [exact T|].
  split; [apply loop_start; exact Hwf|].
  split; [apply started_log; exact Hwf | reflexivity].
Qed.

Lemma C8_cycle_start_witness :
  wf_state (boot [FNum 27; FNum 43]) /\
  exists s' rest,
    runs (loop no_heat_index) (boot [FNum 27; FNum 43]) s' /\
    trace s' =
      [EvReadTemperature (FNum 27); EvReadHumidity (FNum 43);
       EvLogClear; EvLogAppend "Measurement received from DHT11."] ++ rest.
Proof.
  assert (W : wf_state (boot [FNum 27; FNum 43])) by (split; reflexivity).
  split; [exact W|].
  destruct (C8_cycle_start no_heat_index (boot [FNum 27; FNum 43]) W)
    as (s' & rest & Hrun & T & _).
  exists s', rest; split; [exact Hrun | exact T].
Defined.

(** C1, evaluated on the code: between the last line sent to the
    serial port and the end of the cycle, a cycle with an invalid
    reading waits 20000 ms and a cycle with a valid reading 15000 ms. *)
Theorem C1_closing_waits_differ
    (hi : cfloat -> cfloat -> bool -> cfloat) (sa sb : state) :
  wf_state sa -> isnan (next_temp sa) || isnan (next_hum sa) = true ->
  wf_state sb -> isnan (next_temp sb) || isnan (next_hum sb) = false ->
  exists sa' sb' newa newb,
    runs (loop hi) sa sa' /\ trace sa' = trace sa ++ newa /\
    runs (loop hi) sb sb' /\ trace sb' = trace sb ++ newb /\
    closing_wait newa = 20000 /\ closing_wait newb = 15000 /\
    closing_wait newa <> closing_wait newb.
Proof.
  intros Wa Ha Wb Hb.
  destruct (loop_invalid hi sa Wa Ha) as (sa' & Ra & _ & _ & _ & _ & Ta).
  destruct (loop_valid hi sb Wb Hb)
    as (sb' & panel & es & Rb & _ & _ & _ & _ & _ & Tb).
  assert (Ea : closing_wait
                 (invalid_cycle_events (next_temp sa) (next_hum sa) (clock sa))
               = 20000).
  { unfold invalid_cycle_events. rewrite !app_assoc, <- app_assoc, <- app_assoc.
    rewrite closing_wait_instructions by reflexivity. reflexivity. }
  eexists sa', sb', _, _.
  split; [exact Ra|]. split; [exact Ta|]. split; [exact Rb|].
  split; [exact Tb|].
  assert (Eb : closing_wait
                 (cycle_start_events (next_temp sb) (next_hum sb) ++
                  [EvLogAppend "Calculations for metrics done.";
                   EvLogAppend "Parsing data to serial output."] ++ panel ++
                  [EvLogAppend "Successful display to serial monitor.";
                   EvLogAppend WAIT_MSG] ++
                  log_section_events es ++ instructions_events ++
                  blink_wait_events) = 15000).
  { rewrite !app_assoc, <- app_assoc.
    rewrite closing_wait_instructions by reflexivity. reflexivity. }
  rewrite Ea, Eb. repeat split; lia.
Qed.

Lemma C1_closing_waits_differ_witness :
  wf_state (boot [FNaN; FNaN]) /\ wf_state (boot [FNum 27; FNum 43]) /\
  exists sa' sb',
    runs (loop no_heat_index) (boot [FNaN; FNaN]) sa' /\
    runs (loop no_heat_index) (boot [FNum 27; FNum 43]) sb' /\
    closing_wait (trace sa') = 20000 /\ closing_wait (trace sb') = 15000.
Proof.
  assert (Wa : wf_state (boot [FNaN; FNaN])) by (split; reflexivity).
  assert (Wb : wf_state (boot [FNum 27; FNum 43])) by (split; reflexivity).
  split; [exact Wa|]. split; [exact Wb|].
  destruct (C1_closing_waits_differ no_heat_index _ _ Wa eq_refl Wb eq_refl)
    as (sa' & sb' & newa & newb & Ra & Ta & Rb & Tb & Ea & Eb & _).
  exists sa', sb'. simpl in Ta, Tb. rewrite Ta, Tb.
  repeat split; assumption.
Defined.

(** The log operations of one cycle: after the clear there are at most
    five calls of [add_log], none of them through the eviction branch. *)
Lemma loop_log_calls (hi : cfloat -> cfloat -> bool -> cfloat) (s : state) :
  wf_state s ->
  exists s' new,
    runs (loop hi) s s' /\ wf_state s' /\
    trace s' =
      trace s ++
      EvReadTemperature (next_temp s) :: EvReadHumidity (next_hum s) ::
      EvLogClear :: new /\
    (add_log_calls new <= 5)%nat /\ no_evict new.
Proof.
  intros Hwf.
  destruct (isnan (next_temp s) || isnan (next_hum s)) eqn:Hnan.
  - destruct (loop_invalid hi s Hwf Hnan) as (s' & Hrun & W & _ & _ & _ & T).
    exists s'; eexists. split; [exact Hrun|]. split; [exact W|].
    split; [rewrite T; unfold invalid_cycle_events, cycle_start_events;
            simpl; reflexivity|].
    split; [vm_compute; lia | reflexivity].
  - destruct (loop_valid hi s Hwf Hnan)
      as (s' & panel & es & Hrun & W & _ & _ & Hdev & _ & T).
    destruct (device_only_quiet panel Hdev) as [Pc Pe].
    destruct (device_only_quiet _ (device_only_log_section es)) as [Lc Le].
    exists s'; eexists. split; [exact Hrun|]. split; [exact W|].
    split; [rewrite T; unfold cycle_start_events; simpl; reflexivity|].
    split.
    + change (add_log_calls
                ([EvLogAppend "Measurement received from DHT11.";
                  EvLogAppend "Calculations for metrics done.";
                  EvLogAppend "Parsing data to serial output."] ++ panel ++
                 [EvLogAppend "Successful display to serial monitor.";
                  EvLogAppend WAIT_MSG] ++
                 log_section_events es ++
                 instructions_events ++ blink_wait_events) <= 5)%nat.
      rewrite !add_log_calls_app, Pc, Lc. vm_compute; lia.
    + change (no_evict
                ([EvLogAppend "Measurement received from DHT11.";
                  EvLogAppend "Calculations for metrics done.";
                  EvLogAppend "Parsing data to serial output."] ++ panel ++
                 [EvLogAppend "Successful display to serial monitor.";
                  EvLogAppend WAIT_MSG] ++
                 log_section_events es ++
                 instructions_events ++ blink_wait_events)).
      repeat (apply no_evict_app; [first [assumption | reflexivity]|]).
      reflexivity.
Qed.

Lemma cycles_no_evict (hi : cfloat -> cfloat -> bool -> cfloat) (n : nat) :
  forall s, wf_state s ->
  exists s' new,
    runs (cycles hi n) s s' /\ wf_state s' /\
    trace s' = trace s ++ new /\ no_evict new.
Proof.
  induction n as [|n IH]; intros s Hwf.
  - exists s, []. rewrite app_nil_r. repeat split; apply Hwf.
  - destruct (loop_log_calls hi s Hwf) as (s1 & new1 & R1 & W1 & T1 & _ & E1).
    destruct (IH s1 W1) as (s' & new & R & W & T & E).
    exists s'; eexists. split; [simpl; eapply runs_bind; eassumption|].
    split; [exact W|]. split; [rewrite T, T1, <- app_assoc; reflexivity|].
    apply no_evict_app; [exact E1 | exact E].
Qed.

(** C10: in the sketch as written the eviction branch of [add_log] is
    never taken: each cycle clears the log and then calls [add_log] at
    most five times, so over any number of cycles, from any state of
    the arrays and in particular from power-up, no entry is evicted. *)
Theorem C10_eviction_unreachable
    (hi : cfloat -> cfloat -> bool -> cfloat) (n : nat) (s : state) :
  wf_state s ->
  (exists s1 new,
     runs (loop hi) s s1 /\
     trace s1 =
       trace s ++
       EvReadTemperature (next_temp s) :: EvReadHumidity (next_hum s) ::
       EvLogClear :: new /\
     (add_log_calls new <= 5)%nat /\ no_evict new) /\
  (exists s' new,
     runs (cycles hi n) s s' /\ trace s' = trace s ++ new /\ no_evict new) /\
  (forall inp, exists s',
     runs (setup >> cycles hi n) (boot inp) s' /\ no_evict (trace s')).
Proof.
  intros Hwf. split; [|split].
  - destruct (loop_log_calls hi s Hwf) as (s1 & new & R & _ & T & C & E).
    exists s1, new; repeat split; assumption.
  - destruct (cycles_no_evict hi n s Hwf) as (s' & new & R & _ & T & E).
    exists s', new; repeat split; assumption.
  - intros inp.
    assert (Hsetup : exists s0, runs setup (boot inp) s0 /\ wf_state s0 /\
                                no_evict (trace s0)).
    { eexists; split; [reflexivity|]. split; [split; reflexivity | reflexivity]. }
    destruct Hsetup as (s0 & R0 & W0 & E0).
    destruct (cycles_no_evict hi n s0 W0) as (s' & new & R & _ & T & E).
    exists s'; split; [eapply runs_bind; eassumption|].
    rewrite T; apply no_evict_app; assumption.
Qed.

Lemma C10_eviction_unreachable_witness :
  wf_state full_log /\
  exists s', runs (cycles no_heat_index 3) full_log s' /\ no_evict (trace s').
Proof.
  assert (W : wf_state full_log) by (split; reflexivity).
  split; [exact W|].
  destruct (C10_eviction_unreachable no_heat_index 3 full_log W)
    as (_ & (s' & new & R & T & E) & _).
  exists s'; split; [exact R|]. rewrite T; exact E.
Defined.

(** ** Metric bank *)

Module ExpBounds.

#[local] Open Scope R_scope.

(** The partial sums of the exponential series are below [exp] on the
    non-negative reals. *)
Lemma exp_series_lower (y : R) (n : nat) :
  0 <= y -> sum_f_R0 (fun i => / INR (fact i) * y ^ i) n <= exp y.
Proof.
  intros Hy. unfold exp. destruct (exist_exp y) as (l, e); simpl.
  apply sum_incr.
  - exact e.
  - intros i. apply Rmult_le_pos.
    + left; apply Rinv_0_lt_compat, INR_fact_lt_0.
    + apply pow_le; exact Hy.
Qed.

(** On [0, 1] the series of [exp (- y)] alternates with decreasing
    terms, so its odd partial sums are below the limit. *)
Lemma exp_neg_series_lower (y : R) (N : nat) :
  0 <= y <= 1 ->
  sum_f_R0 (tg_alt (fun i => y ^ i / INR (fact i))) (S (2 * N)) <= exp (- y).
Proof.
  intros [Hy0 Hy1]. unfold exp.
  destruct (exist_exp (- y)) as (l, e); simpl proj1_sig.
  apply (alternated_series_ineq (fun i => y ^ i / INR (fact i)) l N).
  - intros n. unfold Rdiv.
    apply Rmult_le_reg_r with (INR (fact (S n))); [apply INR_fact_lt_0|].
    rewrite Rmult_assoc, Rinv_l, Rmult_1_r by apply INR_fact_neq_0.
    rewrite fact_simpl, mult_INR.
    replace (y ^ n * / INR (fact n) * (INR (S n) * INR (fact n)))
      with (y ^ n * INR (S n)) by (field; apply INR_fact_neq_0).
    simpl pow. rewrite (Rmult_comm y).
    apply Rmult_le_compat_l; [apply pow_le; exact Hy0|].
    rewrite S_INR. pose proof (pos_INR n). lra.
  - apply cv_speed_pow_fact.
  - unfold exp_in, infinite_sum in e. intros eps Heps.
    destruct (e eps Heps) as (n0 & Hn0). exists n0. intros n Hn.
    replace (sum_f_R0 (tg_alt (fun i => y ^ i / INR (fact i))) n)
      with (sum_f_R0 (fun i => / INR (fact i) * (- y) ^ i) n);
      [apply Hn0; exact Hn|].
    apply sum_eq. intros i _. unfold tg_alt, Rdiv.
    replace (- y) with (-1 * y) by ring. rewrite Rpow_mult_distr. ring.
Qed.

Ltac fact_literals H :=
  repeat match type of H with
  | context [INR (fact ?k)] =>
      let z := eval vm_compute in (Z.of_nat (fact k)) in
      replace (INR (fact k)) with (IZR z) in H
        by (rewrite INR_IZR_INZ; apply f_equal; vm_compute; reflexivity)
  end.

(** Half of the exponent of the Magnus formula at 27 degrees. *)
Lemma exp_half_bounds : 2.4123 <= exp (7929 / 9004) <= 2.41238.
Proof.
  assert (Hy : 0 <= 7929 / 9004 <= 1) by lra.
  split.
  - pose proof (exp_series_lower (7929 / 9004) 7 (proj1 Hy)) as H.
    cbn [sum_f_R0] in H. fact_literals H. lra.
  - pose proof (exp_neg_series_lower (7929 / 9004) 4 Hy) as H.
    cbn [sum_f_R0 Nat.mul Nat.add] in H. unfold tg_alt in H.
    fact_literals H.
    assert (Hinv : exp (7929 / 9004) * exp (- (7929 / 9004)) = 1).
    { rewrite <- exp_plus, Rplus_opp_r. apply exp_0. }
    assert (Hlow : / 2.41238 <= exp (- (7929 / 9004))) by lra.
    assert (Hp : 0 < exp (7929 / 9004)) by apply exp_pos.
    nra.
Qed.

(** [e^(17.62 T / (243.12 + T))] at [T = 27]. *)
Lemma magnus_27_bounds :
  5.8191 <= exp (17.62 * 27 / (243.12 + 27)) <= 5.8196.
Proof.
  replace (17.62 * 27 / (243.12 + 27)) with (7929 / 9004 + 7929 / 9004)
    by lra.
  rewrite exp_plus. pose proof exp_half_bounds as [Hl Hu]. nra.
Qed.

End ExpBounds.

Ltac float_div_cases :=
  repeat match goal with
  | |- context [Req_dec_T ?a ?b] =>
      destruct (Req_dec_T a b) as [?|?]; [exfalso; lra|]
  end.

(** C7: at T = 27.00 and RH = 43.00 the formulas of the metric bank
    give, to two decimals, a dew point of 15.60, a vapor pressure of
    15.29, a saturation vapor pressure of 35.57, a humidex of 29.94 and
    an enthalpy of 1124.19 (in exact real arithmetic). *)
Theorem C7_reference_values :
  approx2 (Metrics.dewPoint (FNum 27) (FNum 43)) 15.60 /\
  approx2 (Metrics.vaporPressure (FNum 27) (FNum 43)) 15.29 /\
  approx2 (Metrics.satVaporPressure (FNum 27) (FNum 43)) 35.57 /\
  approx2 (Metrics.humidex (FNum 27) (FNum 43)) 29.94 /\
  approx2 (Metrics.enthalpy (FNum 27) (FNum 43)) 1124.19.
Proof.
  pose proof ExpBounds.magnus_27_bounds as [Hl Hu].
  unfold Metrics.humidex, Metrics.dewPoint, Metrics.vaporPressure,
    Metrics.satVaporPressure, Metrics.enthalpy.
  unfold Float.exp, Float.add, Float.sub, Float.mul, Float.div,
    Float.lift1, Float.lift2.
  float_div_cases. unfold approx2.
  repeat split; lra.
Qed.

(** * Further properties of the sketch *)

(** ** [blinkLed] *)

Lemma plays_blink_turn (delayMs : Z) :
  plays (digitalWrite_LED true >> delay delayMs >>
         digitalWrite_LED false >> delay delayMs)
        [EvLed true; EvDelay delayMs; EvLed false; EvDelay delayMs].
Proof.
  apply (plays_bind _ _ [_]); [apply plays_led|].
  apply (plays_bind _ _ [_]); [apply plays_delay|].
  apply (plays_bind _ _ [_]); [apply plays_led | apply plays_delay].
Qed.

Lemma total_delay_app (a b : list event) :
  total_delay (a ++ b) = total_delay a + total_delay b.
Proof.
  unfold total_delay; induction a as [|e a IH]; simpl; [reflexivity|].
  rewrite IH; lia.
Qed.

Lemma total_delay_blink_events (times delayMs : Z) :
  total_delay (blink_events times delayMs) = 2 * Z.max 0 times * delayMs.
Proof.
  unfold blink_events.
  replace (Z.max 0 times) with (Z.of_nat (Z.to_nat times)) by lia.
  induction (Z.to_nat times) as [|n IH]; [reflexivity|].
  cbn [replicate concat]. rewrite total_delay_app, IH.
  unfold total_delay; simpl. lia.
Qed.

Lemma last_led_app (a b : list event) :
  last_led (a ++ b) =
  match last_led b with Some l => Some l | None => last_led a end.
Proof.
  induction a as [|e a IH]; simpl.
  - destruct (last_led b); reflexivity.
  - rewrite IH. destruct (last_led b); reflexivity.
Qed.

(** X1: for arguments in the range of [int] with a non-negative
    [delayMs], [blinkLed(times, delayMs)] drives the LED high, waits,
    drives it low and waits, [times] times over and nothing else: the
    delays it requests add up to [2 * times * delayMs] milliseconds, it
    leaves the LED low, and it does nothing at all when [times] is zero
    or negative. *)
Theorem blinkLed_behaviour (times delayMs : Z) :
  -32768 <= times <= 32767 -> 0 <= delayMs <= 32767 ->
  plays (blinkLed times delayMs) (blink_events times delayMs) /\
  total_delay (blink_events times delayMs) = 2 * Z.max 0 times * delayMs /\
  (0 < times -> last_led (blink_events times delayMs) = Some false) /\
  (times <= 0 -> blink_events times delayMs = []).
Proof.
  intros _ _.
  split; [|split; [apply total_delay_blink_events|split]].
  - unfold blinkLed, for_range, blink_events.
    rewrite Z.sub_0_r.
    apply plays_for_loop_const, plays_blink_turn.
  - intros Hpos. unfold blink_events.
    destruct (Z.to_nat times) as [|n] eqn:E; [lia|].
    clear E. induction n as [|n IH]; [reflexivity|].
    change (replicate (S (S n)) ?x) with (x :: replicate (S n) x).
    cbn [concat]. rewrite last_led_app, IH. reflexivity.
  - intros Hneg. unfold blink_events.
    replace (Z.to_nat times) with 0%nat by lia. reflexivity.
Qed.

Lemma blinkLed_behaviour_witness :
  -32768 <= 3 <= 32767 /\ 0 <= 70 <= 32767 /\ 0 < 3 /\
  total_delay (blink_events 3 70) = 420 /\
  last_led (blink_events 3 70) = Some false.
Proof.
  assert (Ht : -32768 <= 3 <= 32767) by lia.
  assert (Hd : 0 <= 70 <= 32767) by lia.
  split; [exact Ht|]. split; [exact Hd|]. split; [lia|].
  destruct (blinkLed_behaviour 3 70 Ht Hd) as (_ & Htot & Hlow & _).
  split; [rewrite Htot; reflexivity | apply Hlow; lia].
Defined.

(** ** The clock *)

Lemma total_delay_no_delay (evs : list event) :
  existsb is_delay evs = false -> total_delay evs = 0.
Proof.
  unfold total_delay; induction evs as [|e evs IH]; simpl; [reflexivity|].
  intros H; apply orb_false_elim in H as [He Hevs].
  rewrite (IH Hevs). destruct e; try discriminate He; reflexivity.
Qed.

Lemma advance_no_delay (c : Z) (evs : list event) :
  existsb is_delay evs = false -> advance c evs = c.
Proof.
  unfold advance; revert c; induction evs as [|e evs IH]; intros c; simpl;
    [reflexivity|].
  intros H; apply orb_false_elim in H as [He Hevs].
  rewrite (IH _ Hevs). destruct e; try discriminate He; reflexivity.
Qed.

(** The clock after a sequence of events that holds a delay: the sum of
    the delays is added modulo 2^32. *)
Lemma advance_total (evs : list event) : forall c : Z,
  existsb is_delay evs = true ->
  advance c evs = (c + total_delay evs) mod 2 ^ 32.
Proof.
  induction evs as [|e evs IH]; intros c H; [discriminate H|].
  destruct (existsb is_delay evs) eqn:Hevs.
  - assert (Hstep : advance c (e :: evs) =
                    advance (match e with
                             | EvDelay ms => (c + ms) mod 2 ^ 32
                             | _ => c
                             end) evs) by reflexivity.
    rewrite Hstep, IH by reflexivity.
    assert (Ht : total_delay (e :: evs) = delay_of e + total_delay evs)
      by reflexivity.
    rewrite Ht. destruct e; simpl delay_of; rewrite ?Z.add_0_l; try reflexivity.
    rewrite Zplus_mod_idemp_l. f_equal; lia.
  - assert (He : is_delay e = true).
    { simpl in H; rewrite Hevs, orb_false_r in H; exact H. }
    destruct e; try discriminate He.
    assert (Hstep : advance c (EvDelay ms :: evs) =
                    advance ((c + ms) mod 2 ^ 32) evs) by reflexivity.
    rewrite Hstep, advance_no_delay by exact Hevs.
    assert (Ht : total_delay (EvDelay ms :: evs) = ms + total_delay evs)
      by reflexivity.
    rewrite Ht, total_delay_no_delay by exact Hevs. f_equal; lia.
Qed.

(** ** [add_log] on a log with room *)




(** ** [print_log_section] *)

Lemma forallb_app_true {A} (f : A -> bool) (a b : list A) :
  forallb f a = true -> forallb f b = true -> forallb f (a ++ b) = true.
Proof. intros Ha Hb; rewrite forallb_app, Ha, Hb; reflexivity. Qed.

Lemma log_section_serial (es : list (string * Z)) :
  forallb is_serial (log_section_events es) = true.
Proof.
  unfold log_section_events.
  apply (forallb_app_true _ [_]); [reflexivity|].
  apply forallb_app_true; [|apply forallb_app_true; [|reflexivity]].
  - induction es as [|e es IH]; [reflexivity|].
    simpl flat_map. apply forallb_app_true; [|exact IH].
    unfold entry_events; destruct (String.eqb _ _); reflexivity.
  - induction (Z.to_nat _) as [|n IH]; [reflexivity | exact IH].
Qed.

Lemma serial_no_delay (evs : list event) :
  forallb is_serial evs = true -> existsb is_delay evs = false.
Proof.
  induction evs as [|e evs IH]; [reflexivity|]. simpl.
  intros H; apply andb_prop in H as [He Hevs].
  rewrite (IH Hevs). destruct e; try discriminate He; reflexivity.
Qed.

(** X3: rendering the log writes to nothing but the serial port: the
    two arrays, the count and the sensor are as before, and every event
    of the rendering is a serial print (no log operation, no LED write,
    no delay, no sensor read). *)
Theorem print_log_section_read_only (s : state) :
  wf_state s -> count_ok s ->
  exists s' out,
    runs print_log_section s s' /\
    log_history s' = log_history s /\
    log_times s' = log_times s /\
    log_count s' = log_count s /\
    dht s' = dht s /\
    trace s' = trace s ++ out /\
    forallb is_serial out = true.
Proof.
  intros Hwf Hc.
  exists (after_events s (log_section_events (log_entries s))),
         (log_section_events (log_entries s)).
  split; [apply print_log_section_run; assumption|].
  repeat (split; [reflexivity|]).
  apply log_section_serial.
Qed.

Lemma print_log_section_read_only_witness :
  wf_state full_log /\ count_ok full_log /\
  exists s' out,
    runs print_log_section full_log s' /\
    log_history s' = log_history full_log /\
    trace s' = out /\ forallb is_serial out = true.
Proof.
  assert (W : wf_state full_log) by (split; reflexivity).
  assert (C : count_ok full_log) by (unfold count_ok, LOG_SIZE; simpl; lia).
  split; [exact W|]. split; [exact C|].
  destruct (print_log_section_read_only full_log W C)
    as (s' & out & R & Hh & _ & _ & _ & T & S).
  exists s', out. split; [exact R|]. split; [exact Hh|].
  split; [exact T | exact S].
Defined.

Lemma bind_none {A B} (m : M A) (k : A -> M B) (s : state) :
  m s = None -> bind m k s = None.
Proof. unfold bind; intros ->; reflexivity. Qed.

(** X4: the renderer relies on the invariant of the count: with more
    than [LOG_SIZE] entries counted it reads [log_history] past its last
    cell, which is undefined behaviour. *)
Theorem print_log_section_overfull (s : state) :
  wf_state s -> LOG_SIZE < log_count s -> print_log_section s = None.
Proof.
  intros Hwf Hc. unfold LOG_SIZE in Hc.
  explode_arrays s Hwf.
  unfold print_log_section.
  rewrite (bind_run _ _ _ _ _ (plays_println _ _)).
  apply bind_none.
  change ((for_range 0 cnt print_log_entry)
            (after_events
               (mkState [h0; h1; h2; h3; h4; h5] [t0; t1; t2; t3; t4; t5]
                        cnt clk inp tr)
               [EvPrintln "Log & Status:                                    "])
          = None).
  unfold for_range.
  destruct (Z.to_nat (cnt - 0)) as [|[|[|[|[|[|[|k]]]]]]] eqn:E; try lia.
  cbn [for_loop Z.add Pos.add Pos.succ].
  do 6 (erewrite bind_run;
        [|apply print_log_entry_plays; [lia | reflexivity | reflexivity]]).
  apply bind_none. reflexivity.
Qed.

Lemma print_log_section_overfull_witness :
  wf_state (mkState (log_history full_log) (log_times full_log) 7 0 [] []) /\
  print_log_section
    (mkState (log_history full_log) (log_times full_log) 7 0 [] []) = None.
Proof.
  assert (W : wf_state (mkState (log_history full_log) (log_times full_log)
                                7 0 [] [])) by (split; reflexivity).
  split; [exact W|].
  apply (print_log_section_overfull _ W). unfold LOG_SIZE; simpl; lia.
Defined.

(** ** Timestamps and buffers *)

Lemma string_length_append (a b : string) :
  String.length (a ++ b)%string = (String.length a + String.length b)%nat.
Proof.
  induction a as [|c a IH]; [reflexivity|].
  change (S (String.length (a ++ b)%string) =
          S (String.length a + String.length b)%nat).
  rewrite IH; reflexivity.
Qed.

Lemma length_substring_0 (t : string) : forall n : nat,
  String.length (substring 0 n t) = Nat.min n (String.length t).
Proof.
  induction t as [|c t IH]; intros [|n]; try reflexivity.
  simpl. rewrite IH. reflexivity.
Qed.

Lemma to_uint_nonnil (n : N) : N.to_uint n <> Decimal.Nil.
Proof.
  destruct n; [discriminate | apply DecimalPos.Unsigned.to_uint_nonnil].
Qed.

Lemma read_dec_fmt_02lu (n : Z) :
  0 <= n -> read_dec (fmt_02lu n) = Some n.
Proof.
  intros Hn. unfold fmt_02lu, read_dec.
  set (d := N.to_uint (Z.to_N n)).
  assert (Hd : NilZero.uint_of_string (NilZero.string_of_uint d) = Some d)
    by (apply NilZero.usu, to_uint_nonnil).
  assert (Hval : Z.of_N (N.of_uint d) = n).
  { unfold d; rewrite DecimalN.Unsigned.of_to. lia. }
  destruct (String.length (NilZero.string_of_uint d) <? 2)%nat.
  - assert (Hpad : NilZero.uint_of_string ("0" ++ NilZero.string_of_uint d)
                   = Some (Decimal.D0 d)).
    { destruct (NilZero.string_of_uint d) as [|c r] eqn:E.
      - exfalso. destruct d; discriminate E.
      - change (NilEmpty.uint_of_string (String "0" (String c r))
                = Some (Decimal.D0 d)).
        change (NilZero.uint_of_string (String c r)) with
          (NilEmpty.uint_of_string (String c r)) in Hd.
        cbn [NilEmpty.uint_of_string] in *. rewrite Hd. reflexivity. }
    rewrite Hpad. f_equal. exact Hval.
  - rewrite Hd. f_equal. exact Hval.
Qed.

(** X5: [%02lu] loses nothing: the digits it prints, read back as a
    decimal number, give the value printed, with or without the padding
    zero. *)
Theorem fmt_02lu_round_trip (n : Z) :
  0 <= n -> read_dec (fmt_02lu n) = Some n.
Proof. intros Hn; apply read_dec_fmt_02lu; exact Hn. Qed.

Lemma fmt_02lu_round_trip_witness :
  0 <= 7 /\ fmt_02lu 7 = "07" /\ read_dec (fmt_02lu 7) = Some 7.
Proof.
  split; [lia|]. split; [reflexivity|].
  apply fmt_02lu_round_trip; lia.
Defined.

(** X6: a timestamp keeps the whole number of seconds: minutes and
    seconds are below 60 and the three fields, read back, give the
    seconds they were printed from (only the milliseconds are dropped
    before). *)
Theorem fmt_hms_fields_round_trip (sec : Z) :
  0 <= sec ->
  fmt_hms sec =
    (fmt_02lu (sec / 3600) ++ ":" ++ fmt_02lu ((sec / 60) mod 60) ++ ":" ++
     fmt_02lu (sec mod 60))%string /\
  0 <= (sec / 60) mod 60 < 60 /\ 0 <= sec mod 60 < 60 /\
  read_hms (fmt_02lu (sec / 3600)) (fmt_02lu ((sec / 60) mod 60))
           (fmt_02lu (sec mod 60)) = Some sec.
Proof.
  intros Hs. split; [reflexivity|].
  assert (Hm : 0 <= (sec / 60) mod 60 < 60) by (apply Z.mod_pos_bound; lia).
  assert (Hr : 0 <= sec mod 60 < 60) by (apply Z.mod_pos_bound; lia).
  split; [exact Hm|]. split; [exact Hr|].
  unfold read_hms.
  rewrite !read_dec_fmt_02lu by (try apply Z.div_pos; lia).
  f_equal.
  pose proof (Z.div_mod sec 60 ltac:(lia)) as H1.
  pose proof (Z.div_mod (sec / 60) 60 ltac:(lia)) as H2.
  assert (H3 : sec / 3600 = sec / 60 / 60)
    by (rewrite Z.div_div by lia; reflexivity).
  lia.
Qed.

Lemma fmt_hms_fields_round_trip_witness :
  0 <= 3725 /\ fmt_hms 3725 = "01:02:05" /\
  read_hms "01" "02" "05" = Some 3725.
Proof.
  split; [lia|]. split; [reflexivity|].
  destruct (fmt_hms_fields_round_trip 3725 ltac:(lia)) as (_ & _ & _ & H).
  exact H.
Defined.

Lemma in_Z_range (n : Z) (k : nat) : forall lo : Z,
  lo <= n < lo + Z.of_nat k -> In n (Z_range lo k).
Proof.
  induction k as [|k IH]; intros lo H; [lia|].
  simpl. destruct (Z.eq_dec lo n) as [->|Hne]; [left; reflexivity|].
  right; apply IH; lia.
Qed.

Lemma fmt_02lu_two_digits (n : Z) :
  0 <= n < 100 -> String.length (fmt_02lu n) = 2%nat.
Proof.
  intros Hn.
  assert (Hall : forallb (fun k => (String.length (fmt_02lu k) =? 2)%nat)
                         (Z_range 0 100) = true) by (vm_compute; reflexivity).
  rewrite forallb_forall in Hall.
  apply Nat.eqb_eq, Hall, in_Z_range. lia.
Qed.

Lemma fmt_02lu_hours (n : Z) :
  0 <= n < 1194 -> (String.length (fmt_02lu n) <= 4)%nat.
Proof.
  intros Hn.
  assert (Hall : forallb (fun k => (String.length (fmt_02lu k) <=? 4)%nat)
                         (Z_range 0 1194) = true) by (vm_compute; reflexivity).
  rewrite forallb_forall in Hall.
  apply Nat.leb_le, Hall, in_Z_range. lia.
Qed.

Lemma length_fmt_hms (sec : Z) :
  String.length (fmt_hms sec) =
  (String.length (fmt_02lu (sec / 3600)) +
   (1 + (String.length (fmt_02lu ((sec / 60) mod 60)) +
         (1 + String.length (fmt_02lu (sec mod 60))))))%nat.
Proof. unfold fmt_hms. rewrite !string_length_append. reflexivity. Qed.

Lemma length_fmt_entry (t : Z) (msg : string) :
  String.length (fmt_entry t msg) =
  (1 + (String.length (fmt_hms (t / 1000)) + (2 + String.length msg)))%nat.
Proof. unfold fmt_entry. rewrite !string_length_append. reflexivity. Qed.

(** X7: for every value of the 32-bit millisecond counter the
    timestamp has at most ten characters (eight below one hundred
    hours), so the 16-byte uptime buffer never cuts it, and the 64-byte
    line buffer never cuts a log line whose message has at most fifty
    characters. *)
Theorem timestamp_fits_buffers (t : Z) (msg : string) :
  0 <= t < 2 ^ 32 ->
  (String.length (fmt_hms (t / 1000)) <= 10)%nat /\
  (t < 360000000 -> String.length (fmt_hms (t / 1000)) = 8%nat) /\
  snprintf 16 (fmt_hms (t / 1000)) = fmt_hms (t / 1000) /\
  ((String.length msg <= 50)%nat ->
   snprintf 64 (fmt_entry t msg) = fmt_entry t msg).
Proof.
  intros Ht.
  assert (Hsec : 0 <= t / 1000 < 4294968).
  { split; [apply Z.div_pos; lia|].
    apply Z.div_lt_upper_bound; lia. }
  assert (Hh : 0 <= t / 1000 / 3600 < 1194).
  { split; [apply Z.div_pos; lia|].
    apply Z.div_lt_upper_bound; lia. }
  assert (Hm : 0 <= (t / 1000 / 60) mod 60 < 60) by (apply Z.mod_pos_bound; lia).
  assert (Hs : 0 <= (t / 1000) mod 60 < 60) by (apply Z.mod_pos_bound; lia).
  pose proof (fmt_02lu_hours _ Hh) as Lh.
  pose proof (fmt_02lu_two_digits ((t / 1000 / 60) mod 60) ltac:(lia)) as Lm.
  pose proof (fmt_02lu_two_digits ((t / 1000) mod 60) ltac:(lia)) as Ls.
  assert (Hlen : (String.length (fmt_hms (t / 1000)) <= 10)%nat)
    by (rewrite length_fmt_hms; lia).
  split; [exact Hlen|]. split; [|split].
  - intros Hsmall.
    assert (Hh2 : 0 <= t / 1000 / 3600 < 100).
    { split; [lia|]. apply Z.div_lt_upper_bound; [lia|].
      apply Z.div_lt_upper_bound; lia. }
    rewrite length_fmt_hms, (fmt_02lu_two_digits _ Hh2), Lm, Ls. reflexivity.
  - apply snprintf_fits; lia.
  - intros Hmsg. apply snprintf_fits. rewrite length_fmt_entry. lia.
Qed.

Lemma timestamp_fits_buffers_witness :
  0 <= 4294967295 < 2 ^ 32 /\
  fmt_hms (4294967295 / 1000) = "1193:02:47" /\
  snprintf 16 (fmt_hms (4294967295 / 1000)) = fmt_hms (4294967295 / 1000).
Proof.
  split; [lia|]. split; [reflexivity|].
  destruct (timestamp_fits_buffers 4294967295 EmptyString ltac:(lia))
    as (_ & _ & H & _).
  exact H.
Defined.

Lemma entry_line_within (e : string * Z) : line_within 65 (entry_line e).
Proof.
  unfold line_within, entry_line. rewrite line_text_entry.
  eexists; split; [reflexivity|].
  rewrite string_length_append.
  destruct (String.eqb_spec (fst e) WAIT_MSG) as [Heq|Hne].
  - rewrite Heq. vm_compute. lia.
  - unfold snprintf. rewrite length_substring_0. simpl String.length. lia.
Qed.

(** X8: whatever the messages and timestamps in the log, no line of
    the log section is wider than 65 characters: the indent and the 63
    characters the line buffer can hold. *)
Theorem log_section_width (s : state) :
  wf_state s -> count_ok s ->
  exists out,
    plays_at print_log_section s out /\
    Forall (line_within 65) (serial_lines out).
Proof.
  intros Hwf Hc.
  destruct (log_section_lines s Hwf Hc) as (out & Hplay & Hlines).
  exists out; split; [exact Hplay|]. rewrite Hlines. clear Hlines.
  assert (Hblank : line_within 65 [Text BLANK]).
  { eexists; split; [reflexivity|]. vm_compute; lia. }
  constructor.
  { eexists; split; [reflexivity|]. vm_compute; lia. }
  apply Forall_app; split; [|apply Forall_app; split].
  - induction (log_entries s) as [|e es IH]; [constructor|].
    simpl map. constructor; [apply entry_line_within | exact IH].
  - induction (Z.to_nat _) as [|n IH]; [constructor|].
    constructor; [exact Hblank | exact IH].
  - constructor; [exact Hblank | constructor].
Qed.

Lemma log_section_width_witness :
  wf_state error_log /\ count_ok error_log /\
  exists out,
    plays_at print_log_section error_log out /\
    Forall (line_within 65) (serial_lines out).
Proof.
  assert (W : wf_state error_log) by (split; reflexivity).
  assert (C : count_ok error_log) by (unfold count_ok, LOG_SIZE; simpl; lia).
  split; [exact W|]. split; [exact C|].
  exact (log_section_width error_log W C).
Defined.

(** ** The cycle of a valid reading *)

Lemma plays_at_millis (k : Z -> M unit) (s : state) (evs : list event) :
  plays_at (k (clock s)) s evs -> plays_at (do now <- millis; k now) s evs.
Proof. trivial. Qed.

Ltac play_step :=
  lazymatch goal with
  | |- plays_at (bind millis _) _ _ => apply plays_at_millis; cbv zeta
  | |- plays_at (bind _ _) (after_events _ _) _ => eapply plays_from_bind
  | |- plays_at (for_loop _ _ _) _ _ =>
      apply plays_for_loop_const; apply plays_println
  | |- plays_at (Serial_println _) _ _ => apply plays_println
  | |- plays_at (Serial_print _) _ _ => apply plays_print
  | |- plays_at (Serial_print_float _ _) _ _ => apply plays_print_float
  end.

Lemma print_report_plays (s : state)
    (temp hum a b c d e f g h i j : cfloat) :
  plays_at (print_report temp hum a b c d e f g h i j) s
           (report_events (clock s) temp hum a b c d e f g h i j).
Proof.
  apply plays_at_start.
  eapply plays_at_conv.
  - unfold print_report, print_border, for_range. repeat play_step.
  - reflexivity.
Qed.

Lemma plays_blinkLed (times delayMs : Z) :
  plays (blinkLed times delayMs) (blink_events times delayMs).
Proof.
  unfold blinkLed, for_range, blink_events. rewrite Z.sub_0_r.
  apply plays_for_loop_const, plays_blink_turn.
Qed.

Lemma report_no_log (now : Z) (temp hum a b c d e f g h i j : cfloat) :
  forallb is_serial (report_events now temp hum a b c d e f g h i j) = true.
Proof. reflexivity. Qed.

(** The state in which a valid cycle renders its log. *)
Lemma loop_valid_explicit (hi : cfloat -> cfloat -> bool -> cfloat) (s : state) :
  wf_state s -> isnan (next_temp s) || isnan (next_hum s) = false ->
  exists s3,
    runs (loop hi) s
      (after_events s3
         (log_section_events (log_entries s3) ++
          instructions_events ++ blink_wait_events)) /\
    wf_state s3 /\ log_count s3 = 5 /\
    log_entries s3 = valid_log (clock s) /\
    clock s3 = after_ack (clock s) /\
    dht s3 = rest_dht s /\
    trace s3 =
      trace s ++ cycle_start_events (next_temp s) (next_hum s) ++
      [EvLogAppend "Calculations for metrics done.";
       EvLogAppend "Parsing data to serial output."] ++
      blink_events 3 70 ++
      report_events (after_ack (clock s)) (next_temp s) (next_hum s)
        (hi (next_temp s) (next_hum s) false)
        (Metrics.dewPoint (next_temp s) (next_hum s))
        (Metrics.absHumidity (next_temp s) (next_hum s))
        (Metrics.specificHumidity (next_temp s) (next_hum s))
        (Metrics.mixingRatio (next_temp s) (next_hum s))
        (Metrics.vaporPressure (next_temp s) (next_hum s))
        (Metrics.satVaporPressure (next_temp s) (next_hum s))
        (Metrics.wetBulb (next_temp s) (next_hum s))
        (Metrics.humidex (next_temp s) (next_hum s))
        (Metrics.enthalpy (next_temp s) (next_hum s)) ++
      [EvLogAppend "Successful display to serial monitor.";
       EvLogAppend WAIT_MSG].
Proof.
  intros Hwf Hok.
  set (temp := next_temp s) in *. set (hum := next_hum s) in *.
  destruct (started_log s Hwf) as [Hm0 Hs0].
  pose proof (wf_started s Hwf) as W0.
  destruct (add_log_room "Calculations for metrics done." (started s) W0)
    as (sa & Ra & Aa); [unfold LOG_SIZE; simpl; lia|].
  destruct (appended_after _ _ _ Aa) as [Wa Ca]; simpl in Ca.
  destruct (add_log_room "Parsing data to serial output." sa Wa)
    as (s2 & R2 & A2); [unfold LOG_SIZE; lia|].
  pose proof (appended_trans _ _ _ _ _ Aa A2)
    as (W2 & C2 & M2 & S2 & K2 & D2 & T2).
  rewrite Hm0 in M2. rewrite Hs0 in S2.
  simpl in C2, M2, S2, K2, D2, T2.
  pose proof (plays_blinkLed 3 70 s2) as P1.
  set (B := blink_events 3 70) in *.
  assert (Kb : clock (after_events s2 B) = after_ack (clock s)).
  { change (clock (after_events s2 B)) with (advance (clock s2) B).
    rewrite advance_total by reflexivity. rewrite K2. reflexivity. }
  pose proof (print_report_plays (after_events s2 B) temp hum
                (hi temp hum false)
                (Metrics.dewPoint temp hum) (Metrics.absHumidity temp hum)
                (Metrics.specificHumidity temp hum) (Metrics.mixingRatio temp hum)
                (Metrics.vaporPressure temp hum)
                (Metrics.satVaporPressure temp hum) (Metrics.wetBulb temp hum)
                (Metrics.humidex temp hum) (Metrics.enthalpy temp hum)) as P2.
  rewrite Kb in P2.
  set (R := report_events _ _ _ _ _ _ _ _ _ _ _ _ _) in *.
  unfold plays_at in P2; rewrite after_events_app in P2.
  set (sp := after_events s2 (B ++ R)) in *.
  assert (Wp : wf_state sp) by exact W2.
  assert (Kp : clock sp = after_ack (clock s)).
  { change (clock sp) with (advance (clock s2) (B ++ R)).
    rewrite advance_total.
    - rewrite total_delay_app.
      rewrite (total_delay_no_delay R)
        by (apply serial_no_delay, report_no_log).
      rewrite K2. reflexivity.
    - rewrite existsb_app. reflexivity. }
  destruct (add_log_room "Successful display to serial monitor." sp Wp)
    as (sb & Rb & Ab); [unfold LOG_SIZE; simpl; lia|].
  destruct (appended_after _ _ _ Ab) as [Wb Cb]; simpl in Cb.
  destruct (add_log_room WAIT_MSG sb Wb) as (s3 & R3 & A3);
    [unfold LOG_SIZE; lia|].
  pose proof (appended_trans _ _ _ _ _ Ab A3)
    as (W3 & C3 & M3 & S3 & K3 & D3 & T3).
  change (log_messages sp) with (log_messages s2) in M3.
  change (log_stamps sp) with (log_stamps s2) in S3.
  rewrite M2 in M3. rewrite S2, Kp in S3.
  simpl in C3, M3, S3, D3, T3.
  exists s3. split.
  { unfold runs. rewrite loop_start by exact Hwf.
    fold temp hum. rewrite Hok.
    unfold valid_branch; cbv zeta.
    eapply runs_bind; [exact Ra|]. eapply runs_bind; [exact R2|].
    eapply runs_bind; [exact P1|]. eapply runs_bind; [exact P2|].
    eapply runs_bind; [exact Rb|]. eapply runs_bind; [exact R3|].
    apply plays_at_bind.
    - apply print_log_section_run; [exact W3 | unfold count_ok, LOG_SIZE; lia].
    - apply plays_closing_valid. }
  split; [exact W3|]. split; [lia|].
  split; [unfold log_entries; rewrite M3, S3; reflexivity|].
  split; [rewrite K3; exact Kp|].
  split; [rewrite D3; exact D2|].
  rewrite T3, T2. simpl. rewrite <- !app_assoc. reflexivity.
Qed.

(** X9: a cycle with a valid reading does, in this order: the two
    reads, the clear, the first three log entries, the three-blink
    acknowledgement, the report, the last two log entries, the log
    section of the log as it then is, the instructions and the
    eight-blink wait; its log holds the five messages in the order they
    were logged; the cycle consumes two values of the sensor. *)
Theorem valid_cycle_trace (hi : cfloat -> cfloat -> bool -> cfloat) (s : state) :
  wf_state s -> isnan (next_temp s) || isnan (next_hum s) = false ->
  exists s' uptime,
    runs (loop hi) s s' /\
    trace s' =
      trace s ++ cycle_start_events (next_temp s) (next_hum s) ++
      [EvLogAppend "Calculations for metrics done.";
       EvLogAppend "Parsing data to serial output."] ++
      blink_events 3 70 ++
      report_events uptime (next_temp s) (next_hum s)
        (hi (next_temp s) (next_hum s) false)
        (Metrics.dewPoint (next_temp s) (next_hum s))
        (Metrics.absHumidity (next_temp s) (next_hum s))
        (Metrics.specificHumidity (next_temp s) (next_hum s))
        (Metrics.mixingRatio (next_temp s) (next_hum s))
        (Metrics.vaporPressure (next_temp s) (next_hum s))
        (Metrics.satVaporPressure (next_temp s) (next_hum s))
        (Metrics.wetBulb (next_temp s) (next_hum s))
        (Metrics.humidex (next_temp s) (next_hum s))
        (Metrics.enthalpy (next_temp s) (next_hum s)) ++
      [EvLogAppend "Successful display to serial monitor.";
       EvLogAppend WAIT_MSG] ++
      log_section_events (log_entries s') ++
      instructions_events ++ blink_wait_events /\
    map fst (log_entries s') =
      ["Measurement received from DHT11."; "Calculations for metrics done.";
       "Parsing data to serial output.";
       "Successful display to serial monitor."; WAIT_MSG] /\
    log_count s' = 5 /\
    dht s' = rest_dht s /\
    wf_state s'.
Proof.
  intros Hwf Hok.
  destruct (loop_valid_explicit hi s Hwf Hok)
    as (s3 & Hrun & W3 & C3 & E3 & K3 & D3 & T3).
  eexists. exists (after_ack (clock s)). split; [exact Hrun|].
  change (log_entries (after_events s3 _)) with (log_entries s3).
  split; [|split; [rewrite E3; reflexivity
                  | split; [exact C3 | split; [exact D3 | exact W3]]]].
  cbn [trace after_events]. rewrite T3.
  rewrite <- !app_assoc. reflexivity.
Qed.

Lemma valid_cycle_trace_witness :
  wf_state (boot [FNum 27; FNum 43]) /\
  isnan (next_temp (boot [FNum 27; FNum 43])) ||
    isnan (next_hum (boot [FNum 27; FNum 43])) = false /\
  exists s',
    runs (loop no_heat_index) (boot [FNum 27; FNum 43]) s' /\
    log_count s' = 5.
Proof.
  assert (W : wf_state (boot [FNum 27; FNum 43])) by (split; reflexivity).
  split; [exact W|]. split; [reflexivity|].
  destruct (valid_cycle_trace no_heat_index (boot [FNum 27; FNum 43]) W eq_refl)
    as (s' & up & R & _ & _ & C & _).
  exists s'; split; [exact R | exact C].
Defined.

Lemma loop_cycle_events (hi : cfloat -> cfloat -> bool -> cfloat) (s : state) :
  wf_state s ->
  exists s', runs (loop hi) s s' /\ trace s' = trace s ++ cycle_events hi s.
Proof.
  intros Hwf. unfold cycle_events.
  destruct (isnan (next_temp s) || isnan (next_hum s)) eqn:Hnan.
  - destruct (loop_invalid hi s Hwf Hnan) as (s' & R & _ & _ & _ & _ & T).
    exists s'; split; assumption.
  - destruct (loop_valid_explicit hi s Hwf Hnan)
      as (s3 & Hrun & W3 & C3 & E3 & K3 & D3 & T3).
    eexists. split; [exact Hrun|].
    cbn [trace after_events]. rewrite T3, E3. unfold valid_cycle_events.
    rewrite <- !app_assoc. reflexivity.
Qed.

Lemma length_split_lines (tr : list event) : forall cur,
  length (split_lines cur tr) = println_count tr.
Proof.
  induction tr as [|e tr IH]; intros cur; [reflexivity|].
  destruct e; simpl; rewrite ?IH; reflexivity.
Qed.

(** X10: the delays a cycle requests add up to 20000 ms when the
    reading is invalid and to 15420 ms when it is valid (the 420 ms of
    the acknowledgement blink and the 15000 ms of the eight-blink
    wait). *)
Theorem cycle_requested_delay
    (hi : cfloat -> cfloat -> bool -> cfloat) (s : state) :
  wf_state s ->
  exists s' new,
    runs (loop hi) s s' /\ trace s' = trace s ++ new /\
    total_delay new =
      if isnan (next_temp s) || isnan (next_hum s) then 20000 else 15420.
Proof.
  intros Hwf.
  destruct (loop_cycle_events hi s Hwf) as (s' & R & T).
  exists s', (cycle_events hi s). split; [exact R|]. split; [exact T|].
  unfold cycle_events.
  destruct (isnan (next_temp s) || isnan (next_hum s)); reflexivity.
Qed.

Lemma cycle_requested_delay_witness :
  wf_state (boot [FNum 27; FNum 43]) /\
  exists s',
    runs (loop no_heat_index) (boot [FNum 27; FNum 43]) s' /\
    total_delay (trace s') = 15420.
Proof.
  assert (W : wf_state (boot [FNum 27; FNum 43])) by (split; reflexivity).
  split; [exact W|].
  destruct (cycle_requested_delay no_heat_index (boot [FNum 27; FNum 43]) W)
    as (s' & new & R & T & D).
  exists s'. split; [exact R|]. rewrite T. exact D.
Defined.

(** X11: the numbers a cycle prints: none when the reading is invalid;
    when it is valid, the twelve values in the order temperature,
    humidity, heat index, humidex, dew point, wet bulb, enthalpy,
    absolute humidity, specific humidity, mixing ratio, vapor pressure,
    saturation vapor pressure, all with two decimals except the
    specific humidity, which has five. *)
Theorem cycle_printed_numbers
    (hi : cfloat -> cfloat -> bool -> cfloat) (s : state) :
  wf_state s ->
  exists s' new,
    runs (loop hi) s s' /\ trace s' = trace s ++ new /\
    printed_numbers new =
      if isnan (next_temp s) || isnan (next_hum s) then []
      else
        [(next_temp s, 2); (next_hum s, 2);
         (hi (next_temp s) (next_hum s) false, 2);
         (Metrics.humidex (next_temp s) (next_hum s), 2);
         (Metrics.dewPoint (next_temp s) (next_hum s), 2);
         (Metrics.wetBulb (next_temp s) (next_hum s), 2);
         (Metrics.enthalpy (next_temp s) (next_hum s), 2);
         (Metrics.absHumidity (next_temp s) (next_hum s), 2);
         (Metrics.specificHumidity (next_temp s) (next_hum s), 5);
         (Metrics.mixingRatio (next_temp s) (next_hum s), 2);
         (Metrics.vaporPressure (next_temp s) (next_hum s), 2);
         (Metrics.satVaporPressure (next_temp s) (next_hum s), 2)].
Proof.
  intros Hwf.
  destruct (loop_cycle_events hi s Hwf) as (s' & R & T).
  exists s', (cycle_events hi s). split; [exact R|]. split; [exact T|].
  unfold cycle_events.
  destruct (isnan (next_temp s) || isnan (next_hum s)); reflexivity.
Qed.

Lemma cycle_printed_numbers_witness :
  wf_state (boot [FNum 27; FNum 43]) /\
  exists s' new,
    runs (loop no_heat_index) (boot [FNum 27; FNum 43]) s' /\
    trace s' = new /\ length (printed_numbers new) = 12%nat.
Proof.
  assert (W : wf_state (boot [FNum 27; FNum 43])) by (split; reflexivity).
  split; [exact W|].
  destruct (cycle_printed_numbers no_heat_index (boot [FNum 27; FNum 43]) W)
    as (s' & new & R & T & P).
  exists s', new. split; [exact R|]. split; [exact T|].
  rewrite P. reflexivity.
Defined.

(** X12: the screen a cycle prints has a fixed height: 12 lines (log
    section and instructions) when the reading is invalid, 61 lines
    when it is valid (30 empty lines, the 4-line header, 15 lines of
    metrics, the 8-line log section and the 4-line instructions). *)
Theorem cycle_screen_height
    (hi : cfloat -> cfloat -> bool -> cfloat) (s : state) :
  wf_state s ->
  exists s' new,
    runs (loop hi) s s' /\ trace s' = trace s ++ new /\
    length (serial_lines new) =
      if isnan (next_temp s) || isnan (next_hum s) then 12%nat else 61%nat.
Proof.
  intros Hwf.
  destruct (loop_cycle_events hi s Hwf) as (s' & R & T).
  exists s', (cycle_events hi s). split; [exact R|]. split; [exact T|].
  unfold serial_lines. rewrite length_split_lines. unfold cycle_events.
  destruct (isnan (next_temp s) || isnan (next_hum s)); reflexivity.
Qed.

Lemma cycle_screen_height_witness :
  wf_state (boot [FNum 27; FNum 43]) /\
  exists s',
    runs (loop no_heat_index) (boot [FNum 27; FNum 43]) s' /\
    length (serial_lines (trace s')) = 61%nat.
Proof.
  assert (W : wf_state (boot [FNum 27; FNum 43])) by (split; reflexivity).
  split; [exact W|].
  destruct (cycle_screen_height no_heat_index (boot [FNum 27; FNum 43]) W)
    as (s' & new & R & T & L).
  exists s'. split; [exact R|]. rewrite T. exact L.
Defined.

(** X13: every cycle drives the LED and leaves it off: the last level
    written to the LED pin in a cycle is LOW, whichever branch the cycle
    takes. *)
Theorem cycle_leaves_led_off
    (hi : cfloat -> cfloat -> bool -> cfloat) (s : state) :
  wf_state s ->
  exists s' new,
    runs (loop hi) s s' /\ trace s' = trace s ++ new /\
    last_led new = Some false.
Proof.
  intros Hwf.
  destruct (loop_cycle_events hi s Hwf) as (s' & R & T).
  exists s', (cycle_events hi s). split; [exact R|]. split; [exact T|].
  unfold cycle_events.
  destruct (isnan (next_temp s) || isnan (next_hum s)).
  - unfold invalid_cycle_events. rewrite !last_led_app. reflexivity.
  - unfold valid_cycle_events. rewrite !last_led_app. reflexivity.
Qed.

Lemma cycle_leaves_led_off_witness :
  wf_state (boot [FNaN]) /\
  exists s' new,
    runs (loop no_heat_index) (boot [FNaN]) s' /\
    trace s' = new /\ last_led new = Some false.
Proof.
  assert (W : wf_state (boot [FNaN])) by (split; reflexivity).
  split; [exact W|].
  destruct (cycle_leaves_led_off no_heat_index (boot [FNaN]) W)
    as (s' & new & R & T & L).
  exists s', new. split; [exact R|]. split; [exact T | exact L].
Defined.

(** ** Formulas of the metric bank, in exact real arithmetic *)

(** X14: the dew point falls one degree for every five points of
    relative humidity below 100: it is the temperature at saturation,
    below it when the air is drier, above it only for a humidity
    reading over 100. *)
Theorem dewPoint_against_temperature (t h : R) :
  exists d : R,
    Metrics.dewPoint (FNum t) (FNum h) = FNum d /\
    (d = t - (100 - h) / 5)%R /\
    (h <= 100 -> d <= t)%R /\
    (h = 100 -> d = t)%R /\
    (100 < h -> t < d)%R.
Proof.
  exists (t - (100 - h) / 5)%R.
  unfold Metrics.dewPoint, Float.sub, Float.div, Float.lift2.
  float_div_cases.
  split; [f_equal; lra|].
  repeat split; intros; lra.
Qed.

Lemma dewPoint_against_temperature_witness :
  (43 <= 100)%R /\
  exists d : R, Metrics.dewPoint (FNum 27) (FNum 43) = FNum d /\ (d <= 27)%R.
Proof.
  assert (H : (43 <= 100)%R) by lra.
  split; [exact H|].
  destruct (dewPoint_against_temperature 27 43) as (d & E & _ & Hle & _).
  exists d; split; [exact E | exact (Hle H)].
Defined.

(** X15: away from the pole of the Magnus exponent, the saturation
    vapor pressure is positive, the vapor pressure is the fraction
    RH/100 of it (so between 0 and the saturation pressure for a
    humidity between 0 and 100), and the humidex is the temperature
    plus 0.5555 times the excess of the vapor pressure over 10 hPa. *)
Theorem vapor_pressure_relations (t h : R) :
  (243.12 + t <> 0)%R ->
  exists svp vp : R,
    Metrics.satVaporPressure (FNum t) (FNum h) = FNum svp /\
    Metrics.vaporPressure (FNum t) (FNum h) = FNum vp /\
    Metrics.humidex (FNum t) (FNum h) = FNum (t + 0.5555 * (vp - 10))%R /\
    (0 < svp)%R /\
    (vp = h / 100 * svp)%R /\
    (0 <= h <= 100 -> 0 <= vp <= svp)%R.
Proof.
  intros Hpole.
  set (e := exp (17.62 * t / (243.12 + t))).
  assert (He : (0 < e)%R) by apply exp_pos.
  exists (6.112 * e)%R, (h / 100.0 * 6.112 * e)%R.
  unfold Metrics.humidex, Metrics.satVaporPressure, Metrics.vaporPressure,
    Float.exp, Float.add, Float.sub, Float.mul, Float.div,
    Float.lift1, Float.lift2.
  float_div_cases. fold e.
  split; [reflexivity|]. split; [reflexivity|].
  split; [f_equal; lra|]. split; [lra|].
  assert (Hlit : (h / 100.0 = h / 100)%R) by lra.
  split; [rewrite Hlit; apply Rmult_assoc|].
  intros [H0 H1].
  assert (Hx : (0 <= h / 100.0 <= 1)%R) by lra.
  split; nra.
Qed.

Lemma vapor_pressure_relations_witness :
  (243.12 + 27 <> 0)%R /\
  exists svp vp : R,
    Metrics.satVaporPressure (FNum 27) (FNum 43) = FNum svp /\
    Metrics.vaporPressure (FNum 27) (FNum 43) = FNum vp /\
    (vp = 43 / 100 * svp)%R.
Proof.
  assert (H : (243.12 + 27 <> 0)%R) by lra.
  split; [exact H|].
  destruct (vapor_pressure_relations 27 43 H)
    as (svp & vp & E1 & E2 & _ & _ & E3 & _).
  exists svp, vp. split; [exact E1|]. split; [exact E2 | exact E3].
Defined.

(** X16: for a humidity between 0 and 100 the specific humidity and
    the mixing ratio are numbers that do not depend on the
    temperature: the specific humidity lies between 0 and
    0.622/1.622 and the mixing ratio between 0 and 622/999. *)
Theorem humidity_ratios_bounded (t h : R) :
  (0 <= h <= 100)%R ->
  exists q w : R,
    Metrics.specificHumidity (FNum t) (FNum h) = FNum q /\
    Metrics.mixingRatio (FNum t) (FNum h) = FNum w /\
    (forall t' : R,
       Metrics.specificHumidity (FNum t') (FNum h) = FNum q /\
       Metrics.mixingRatio (FNum t') (FNum h) = FNum w) /\
    (0 <= q <= 0.622 / 1.622)%R /\
    (0 <= w <= 622 / 999)%R.
Proof.
  intros [H0 H1].
  exists (0.622 * (h / 100.0) / (1 + 0.622 * (h / 100.0)))%R,
         (622 * (h / 100.0) / (1000 - h / 100.0))%R.
  unfold Metrics.specificHumidity, Metrics.mixingRatio,
    Float.add, Float.sub, Float.mul, Float.div, Float.lift2.
  float_div_cases.
  split; [reflexivity|]. split; [reflexivity|].
  split; [intros t'; split; reflexivity|].
  split.
  - assert (Hd : (0 < 1 + 0.622 * (h / 100.0))%R) by lra.
    split.
    + apply Rmult_le_pos; [lra | left; apply Rinv_0_lt_compat; exact Hd].
    + apply Rmult_le_reg_r with (1 + 0.622 * (h / 100.0))%R; [exact Hd|].
      unfold Rdiv at 1. rewrite Rmult_assoc, Rinv_l by lra. lra.
  - assert (Hd : (0 < 1000 - h / 100.0)%R) by lra.
    split.
    + apply Rmult_le_pos; [lra | left; apply Rinv_0_lt_compat; exact Hd].
    + apply Rmult_le_reg_r with (1000 - h / 100.0)%R; [exact Hd|].
      unfold Rdiv at 1. rewrite Rmult_assoc, Rinv_l by lra. lra.
Qed.

Lemma humidity_ratios_bounded_witness :
  (0 <= 43 <= 100)%R /\
  exists q : R,
    Metrics.specificHumidity (FNum 27) (FNum 43) = FNum q /\
    (0 <= q <= 0.622 / 1.622)%R.
Proof.
  assert (H : (0 <= 43 <= 100)%R) by lra.
  split; [exact H|].
  destruct (humidity_ratios_bounded 27 43 H) as (q & w & E & _ & _ & B & _).
  exists q; split; [exact E | exact B].
Defined.
